(** * Inquir: a shallow embedding of [src/inquir.ts]

    The development follows the class [Inquir] method by method.  JavaScript
    objects that the code uses as dictionaries are finite maps, the prompt
    store (a JS [Map], which iterates in insertion order) is an association
    list, prompt objects live in a heap because [add] stores and mutates the
    object it is handed, and every call on an external collaborator
    (readline, the output stream, the console, user callbacks) is recorded
    in a trace. *)

From Stdlib Require Import ZArith String Ascii List Bool Lia DecimalString.
From stdpp Require Import gmap strings list.

Local Open Scope Z_scope.

(** ** JavaScript values *)

Module JS.

(** Numbers that the code produces are integers or [NaN]; integers are
    modelled by [Z], which is exact for doubles below 2^53. *)
Inductive number := Num (z : Z) | NaN.

Definition loc := nat.

Inductive value :=
| VUndefined
| VNull
| VBool (b : bool)
| VNumber (n : number)
| VString (s : string)
| VStrings (l : list string)   (* an array of strings *)
| VFunction (fname : string) (arity : nat)
| VObject (l : loc).

(** ToBoolean. *)
Definition truthy (v : value) : bool :=
  match v with
  | VUndefined | VNull => false
  | VBool b => b
  | VNumber (Num z) => negb (z =? 0)
  | VNumber NaN => false
  | VString s => negb (String.eqb s "")
  | VStrings _ | VFunction _ _ | VObject _ => true
  end.

(** [a || b]. *)
Definition or_else (a b : value) : value := if truthy a then a else b.

(** [x + 1] on an integral number. *)
Definition succ (n : number) : number :=
  match n with Num z => Num (z + 1) | NaN => NaN end.

(** [a === b] on numbers: [NaN] equals nothing. *)
Definition strict_eq (a b : number) : bool :=
  match a, b with Num x, Num y => x =? y | _, _ => false end.

(** ToString on a number (plain decimal notation, i.e. below 10^21). *)
Definition number_to_string (n : number) : string :=
  match n with
  | Num z => NilZero.string_of_int (Z.to_int z)
  | NaN => "NaN"
  end.

(** [s.slice(0, e)]: a negative end counts from the end of the string. *)
Definition slice0 (s : string) (e : Z) : string :=
  let len := Z.of_nat (String.length s) in
  let stop := if e <? 0 then Z.max (len + e) 0 else Z.min e len in
  String.substring 0 (Z.to_nat stop) s.

(** [s.repeat(n)]. *)
Fixpoint repeat (s : string) (n : nat) : string :=
  match n with O => "" | S k => s +:+ repeat s k end.

(** [c.startsWith(line)]. *)
Definition startsWith (c line : string) : bool := String.prefix line c.

(** Case folding of one code unit, as the [i] flag of a regular expression
    applies it to ASCII letters. *)
Definition fold_case (c : ascii) : ascii :=
  let n := nat_of_ascii c in
  if ((65 <=? n)%nat && (n <=? 90)%nat)%bool then ascii_of_nat (n + 32) else c.

(** [new RegExp('^' + pat, 'i').test(k)] for a pattern [pat] that holds no
    regular-expression metacharacter: [pat] is a prefix of [k] up to the
    case of ASCII letters. *)
Fixpoint test_prefix_i (pat k : string) : bool :=
  match pat, k with
  | EmptyString, _ => true
  | String _ _, EmptyString => false
  | String a p, String b r =>
      (Ascii.eqb (fold_case a) (fold_case b) && test_prefix_i p r)%bool
  end.

(** Characters that stand for themselves in a regular expression. *)
Definition literal_char (c : ascii) : bool :=
  let n := nat_of_ascii c in
  (((48 <=? n) && (n <=? 57)) || ((65 <=? n) && (n <=? 90))
   || ((97 <=? n) && (n <=? 122)) || (n =? 95) || (n =? 32) || (n =? 45))%nat%bool.

Fixpoint literal_pattern (s : string) : bool :=
  match s with
  | EmptyString => true
  | String c r => (literal_char c && literal_pattern r)%bool
  end.

End JS.

Import JS.

(** ** Helpers imported from the [chek] package

    [chek] is an external dependency.  The two helpers below follow the
    documented behaviour of the package on the values the code passes to
    them (numbers, undefined and null); [extend] is given with the options
    and [noop] is an argument of [listen]. *)

Module Chek.

(** [isValue(v)]: neither undefined nor null; NaN counts as a value. *)
Definition isValue (v : value) : bool :=
  match v with
  | VUndefined | VNull => false
  | _ => true
  end.

(** [toDefault(v, def)]. *)
Definition toDefault (v def : value) : value := if isValue v then v else def.

End Chek.

(** ** Session options: [getOption] and [setOption] *)

Module Options.

Section WithValues.

(** Option values are left abstract: any defined JavaScript value. *)
Context {V : Type}.

(** The options object, a dictionary from option names to values. *)
Abbreviation IOptions := (gmap string V).

(** Modelled from the spec: [extend] of the external [chek] package is not
    part of the sources; section 3 describes the setter as one that
    "shallow-merges new values", so every key of [src] is written over
    [dest] and every other key of [dest] is kept. *)
Definition extend (dest src : IOptions) : IOptions := src ∪ dest.

(** [getOption(key)]: [this.options[key]]; [None] is [undefined]. *)
Definition getOption (options : IOptions) (key : string) : option V :=
  options !! key.

(** [setOption(key, val)]: [key] is either an option name or a whole
    options object ([isPlainObject(key)]). *)
Definition setOption (options : IOptions) (key : string + IOptions) (val : V)
  : IOptions :=
  let obj : IOptions :=
    match key with
    | inr o => o
    | inl k => <[k := val]> ∅
    end in
  extend options obj.

End WithValues.

End Options.

(** ** Completion resolver: [completionHandler] *)

Module Completion.

(** A completion function: its declared arity ([completer.length]), what it
    returns when called with the line alone, and the arguments it hands to
    the callback when called with a line and a callback ([None] when it
    never calls back). *)
Record CompletionsHandler := {
  ch_length : nat;
  ch_return : string -> list string;
  ch_callback : string -> option (option string * list string)
}.

(** [options.completer]: null by default, a fixed list, or a function. *)
Inductive completer :=
| completer_null
| completer_array (comps : list string)
| completer_function (fn : CompletionsHandler).

(** What a resolver does with a line. *)
Inductive completion :=
| Returns (hits : list string) (line : string)
| CallsBack (hits : list string) (line : string)
| Throws (err : string)
| Silent.

(** [filter(line, comps)]. *)
Definition filter (line : string) (comps : list string) : list string :=
  List.filter (fun c => startsWith c line) comps.

Definition _completerAsync (c : completer) (line : string) : completion :=
  match c with
  | completer_function fn =>
      match ch_callback fn line with
      | Some (Some err, _) => Throws err
      | Some (None, comps) => CallsBack (filter line comps) line
      | None => Silent
      end
  | _ => Throws "TypeError: completer is not a function"
  end.

Definition _completer (c : completer) (line : string) : completion :=
  match c with
  | completer_function fn => Returns (filter line (ch_return fn line)) line
  | completer_array comps => Returns (filter line comps) line
  | completer_null => Throws "TypeError: Cannot read property 'filter' of null"
  end.

(** [completionHandler(completer)] selects one of three resolvers. *)
Definition completionHandler (c : completer) : string -> completion :=
  match c with
  | completer_null => fun l => Returns [] l
  | completer_array [] => fun l => Returns [] l
  | completer_array _ => _completer c
  | completer_function fn =>
      if (ch_length fn =? 1)%nat then _completer c else _completerAsync c
  end.

End Completion.

(** ** Masked input: the [inputHandler] closure of [mask] *)

Module Mask.

(** The key object of the last [keypress] event. *)
Record key := { key_name : option string; key_ctrl : bool }.

Inductive event :=
| ClearLine          (* readline.clearLine(output, 0) *)
| CursorTo (x : Z)   (* readline.cursorTo(output, x) *)
| Write (s : string) (* output.write(s) *)
| AddListeners       (* toggleListeners() *)
| RemoveListeners    (* toggleListeners(false) *)
| Question (q : string). (* rl.question(prompt, ...) *)

(** The variables the closure shares: [prompt] ([None] is null), [mask],
    [chars], [lastKey], and what it wrote. *)
Record state := {
  prompt : option string;
  mask_char : string;
  chars : string;
  lastKey : option key;
  out : list event
}.

(** [mask = mask || '*']. *)
Definition default_mask (m : option string) : string :=
  match m with
  | Some s => if String.eqb s "" then "*" else s
  | None => "*"
  end.

(** [clearLine(false)]. *)
Definition clearLine : list event := [ClearLine; CursorTo 0].

Definition redraw (p : string) (st : state) (buffer : string) : state :=
  {| prompt := prompt st; mask_char := mask_char st; chars := buffer;
     lastKey := None;
     out := out st ++ clearLine
              ++ [Write (p +:+ JS.repeat (mask_char st) (String.length buffer))] |}.

(** [inputHandler(input)]; [None] is the TypeError of reading [ctrl] from a
    null [lastKey]. *)
Definition inputHandler (input : string) (st : state) : option state :=
  match lastKey st with
  | None => None
  | Some k =>
      let key :=
        if key_ctrl k then "ctrl"
        else match key_name k with Some n => n | None => "" end in
      if (String.eqb key "return" || String.eqb key "ctrl")%bool then
        Some {| prompt := None; mask_char := mask_char st; chars := "";
                lastKey := None; out := out st ++ [RemoveListeners] |}
      else
        match prompt st with
        | Some p =>
            if String.eqb p "" then
              Some {| prompt := prompt st; mask_char := mask_char st;
                      chars := chars st; lastKey := None; out := out st |}
            else if String.eqb key "backspace" then
              Some (redraw p st
                      (slice0 (chars st) (Z.of_nat (String.length (chars st)) - 2)))
            else
              Some (redraw p st (chars st +:+ input))
        | None =>
            Some {| prompt := None; mask_char := mask_char st;
                    chars := chars st; lastKey := None; out := out st |}
        end
  end.

(** [mask(prompt, mask, fn)] up to the question it asks. *)
Definition mask (p : option string) (m : option string) : state :=
  let falsy := match p with Some s => String.eqb s "" | None => true end in
  {| prompt := p; mask_char := default_mask m; chars := ""; lastKey := None;
     out := if falsy then [RemoveListeners]
            else [AddListeners; Question (default "" p)] |}.

(** The [keypress] listener. *)
Definition keypressHandler (k : option key) (st : state) : state :=
  {| prompt := prompt st; mask_char := mask_char st; chars := chars st;
     lastKey := k; out := out st |}.

End Mask.

(** ** The [Inquir] instance *)

(** [EventState] of [interfaces.ts]. *)
Inductive EventState := EMERGENCY | ERROR | WARNING | INFO | EXIT.

Definition EventState_value (e : EventState) : value :=
  VNumber (Num match e with
               | EMERGENCY => 0 | ERROR => 1 | WARNING => 2 | INFO => 3 | EXIT => 4
               end).

(** [EventState[event]]: the reverse mapping of the numeric enum, on the
    events the instance itself passes: a member of the enum, or a message
    that is not the name of one. *)
Definition EventState_label (event : value) : option string :=
  match event with
  | VNumber (Num 0) => Some "EMERGENCY"
  | VNumber (Num 1) => Some "ERROR"
  | VNumber (Num 2) => Some "WARNING"
  | VNumber (Num 3) => Some "INFO"
  | VNumber (Num 4) => Some "EXIT"
  | _ => None
  end.

(** [_styles]. *)
Definition _styles (label : string) : option (list string) :=
  if String.eqb label "emergency" then Some ["red"; "bold"]
  else if String.eqb label "error" then Some ["red"; "dim"]
  else if String.eqb label "warning" then Some ["yellow"; "dim"]
  else if String.eqb label "warn" then Some ["yellow"; "dim"]
  else if String.eqb label "info" then Some ["green"; "dim"]
  else if String.eqb label "exit" then Some ["cyan"; "dim"]
  else None.

Definition lower_ascii (c : ascii) : ascii := fold_case c.

Fixpoint toLowerCase (s : string) : string :=
  match s with
  | EmptyString => EmptyString
  | String c r => String (lower_ascii c) (toLowerCase r)
  end.

(** The text that [colorize(val, styles)] yields; the escape codes belong
    to the external styling package, so the text is kept symbolic. *)
Inductive styled := Plain (text : value) | Ansi (text : value) (styles : value).

(** A validate handler: a function, or a thenable with its outcome. *)
Inductive promise_state := Pending | Fulfilled (v : value) | Rejected (err : value).
Inductive handler := HFunction (arity : nat) | HThenable (p : promise_state).

(** The [name] a prompt object carries: [add] stores its first argument
    there, a string or, in the one-argument form, the object itself. *)
Inductive pname := name_undefined | name_string (s : string) | name_object (l : loc).

(** A prompt object ([IPrompt], and [IPromptInternal] once it has an id).
    The fields [default], [coerce] and [when] are never read by the code
    and are left out. *)
Record IPrompt := {
  p_id : option number;
  p_name : pname;
  p_type : option string;
  p_message : string;
  p_validate : option handler
}.

(** Calls on the collaborators of the instance. *)
Inductive event :=
| OnLog (args : list value)
    (* options.onLog(...args) *)
| ConsoleLog (label : option styled) (args : list value)
    (* console.log([label + ':',] formatter(args).msg) *)
| RlSetPrompt (text : styled)
| RlPrompt
| RlQuestion (query : string)
| RlOn (ev : string)
| EmitKeypressEvents
| ProcessOn (ev : string) (state : EventState)
| ProcessRemoveListener (ev : string)
| CreateInterface
| SetRawMode.

Record Inquir := {
  options : gmap string value;
  _prompts : list (string * loc);   (* Map<string, IPromptInternal> *)
  _initialized : bool;
  _eventsEnabled : bool;
  heap : gmap loc IPrompt;          (* the prompt objects *)
  trace : list event                (* oldest call first *)
}.

Definition emit (evs : list event) (st : Inquir) : Inquir :=
  {| options := options st; _prompts := _prompts st;
     _initialized := _initialized st; _eventsEnabled := _eventsEnabled st;
     heap := heap st; trace := trace st ++ evs |}.

Definition set_prompts (m : list (string * loc)) (st : Inquir) : Inquir :=
  {| options := options st; _prompts := m;
     _initialized := _initialized st; _eventsEnabled := _eventsEnabled st;
     heap := heap st; trace := trace st |}.

Definition set_heap (h : gmap loc IPrompt) (st : Inquir) : Inquir :=
  {| options := options st; _prompts := _prompts st;
     _initialized := _initialized st; _eventsEnabled := _eventsEnabled st;
     heap := h; trace := trace st |}.

Definition set_initialized (b : bool) (st : Inquir) : Inquir :=
  {| options := options st; _prompts := _prompts st;
     _initialized := b; _eventsEnabled := _eventsEnabled st;
     heap := heap st; trace := trace st |}.

Definition set_eventsEnabled (b : bool) (st : Inquir) : Inquir :=
  {| options := options st; _prompts := _prompts st;
     _initialized := _initialized st; _eventsEnabled := b;
     heap := heap st; trace := trace st |}.

(** [this.options[key]]. *)
Definition option_of (st : Inquir) (key : string) : value :=
  default VUndefined (options st !! key).

(** A call either returns or throws; what it changed stays changed. *)
Inductive result (A : Type) :=
| Normal (a : A)
| Throw (err : string) (a : A).
Arguments Normal {A} a.
Arguments Throw {A} err a.

(** [colorize(val, styles)]. *)
Definition colorize (val styles : value) : styled := Ansi val styles.

(** The [logger] closure of [log]: [args] is the event followed by the
    message arguments. *)
Definition logger (args : list value) (st : Inquir) : Inquir :=
  if truthy (option_of st "onLog") then emit [OnLog args] st
  else
    let ev := hd VUndefined args in
    let rest := tl args in
    match EventState_label ev with
    | Some label =>
        let shown :=
          match _styles (toLowerCase label) with
          | Some styles => colorize (VString label) (VStrings styles)
          | None => Plain (VString label)
          end in
        emit [ConsoleLog (Some shown) rest] st
    | None =>
        let rest' :=
          match ev with
          | VString "wrap" => rest
          | _ => ev :: rest
          end in
        emit [ConsoleLog None rest'] st
    end.

(** [log(...args)] called with arguments, and the bound loggers it returns. *)
Definition log (args : list value) (st : Inquir) : Inquir :=
  match args with [] => st | _ => logger args st end.
Definition log_error (args : list value) := logger (EventState_value ERROR :: args).
Definition log_warn (args : list value) := logger (EventState_value WARNING :: args).

(** [setDelim(delim?)]. *)
Definition setDelim (delim : value) (st : Inquir) : Inquir :=
  let delim := or_else delim (option_of st "delim") in
  emit [RlSetPrompt (colorize delim (option_of st "delimStyle")); RlPrompt] st.

(** [toggleExceptions()] with the default events. *)
Definition toggleExceptions (st : Inquir) : Inquir :=
  if _eventsEnabled st then
    emit [ProcessRemoveListener "exit"; ProcessRemoveListener "uncaughtException"] st
  else
    set_eventsEnabled true
      (emit [ProcessOn "exit" EXIT; ProcessOn "uncaughtException" EMERGENCY] st).

(** [init()]; [isTTY] is [process.stdin.isTTY]. *)
Definition init (isTTY : bool) (st : Inquir) : Inquir :=
  if _initialized st then st
  else
    let st := emit [EmitKeypressEvents] st in
    let st := toggleExceptions st in
    let st := emit [CreateInterface] st in
    if isTTY then emit [SetRawMode] st else st.

(** ** The question registry: the [methods] object of [prompts] *)

Module Registry.

(** A JS [Map] keeps its keys in insertion order; [set] on a present key
    replaces the value where it stands. *)
Fixpoint map_set (k : string) (v : loc) (m : list (string * loc)) : list (string * loc) :=
  match m with
  | [] => [(k, v)]
  | (k', v') :: r =>
      if String.eqb k k' then (k, v) :: r else (k', v') :: map_set k v r
  end.

Definition map_delete (k : string) (m : list (string * loc)) : list (string * loc) :=
  List.filter (fun e => negb (String.eqb k (fst e))) m.

Fixpoint map_get (k : string) (m : list (string * loc)) : option loc :=
  match m with
  | [] => None
  | (k', v) :: r => if String.eqb k k' then Some v else map_get k r
  end.

Definition map_has (k : string) (m : list (string * loc)) : bool :=
  match map_get k m with Some _ => true | None => false end.

(** What the closure of one [prompts(namespace)] call shares between its
    methods: the namespace and the id counter [ctr]. *)
Record methods := { namespace : string; ctr : value }.

(** ToString of a name inside a template literal. *)
Definition name_to_string (n : pname) : string :=
  match n with
  | name_undefined => "undefined"
  | name_string s => s
  | name_object _ => "[object Object]"
  end.

Definition name_truthy (n : pname) : bool :=
  match n with
  | name_undefined => false
  | name_string s => negb (String.eqb s "")
  | name_object _ => true
  end.

Definition toNamespace (ns : string) (key : pname) : string :=
  ns +:+ ":" +:+ name_to_string key.

Definition exists_ (h : methods) (name : pname) (st : Inquir) : bool :=
  map_has (toNamespace (namespace h) name) (_prompts st).

Definition get (h : methods) (name : pname) (st : Inquir) : option loc :=
  map_get (toNamespace (namespace h) name) (_prompts st).

(** [getAll()]: the keys that the namespace pattern matches, each mapped to
    its stored object. *)
Definition getAll (h : methods) (st : Inquir) : list loc :=
  omap (fun k => map_get k (_prompts st))
    (List.filter (fun k => test_prefix_i (namespace h) k) (map fst (_prompts st))).

(** [p.id] read through a reference. *)
Definition id_of (st : Inquir) (l : loc) : option number :=
  o ← heap st !! l; p_id o.

Definition has_id (st : Inquir) (id : number) (l : loc) : bool :=
  match id_of st l with
  | Some n => strict_eq n id
  | None => false
  end.

(** [getById(id)]: [None] is null. *)
Definition getById (h : methods) (id : number) (st : Inquir) : option loc :=
  head (List.filter (has_id st id) (getAll h st)).

(** The default comparator of [Array.prototype.sort]: undefined goes last,
    everything else is ordered by its string conversion. *)
Definition sort_le (a b : option number) : bool :=
  match a, b with
  | _, None => true
  | None, Some _ => false
  | Some x, Some y => String.leb (number_to_string x) (number_to_string y)
  end.

Fixpoint sort_insert (x : option number) (l : list (option number)) : list (option number) :=
  match l with
  | [] => [x]
  | y :: r => if sort_le x y then x :: l else y :: sort_insert x r
  end.

Definition sort (l : list (option number)) : list (option number) :=
  fold_right sort_insert [] l.

(** [array.pop()]: the last element, undefined on an empty array. *)
Definition pop (l : list (option number)) : value :=
  match last l with
  | Some (Some n) => VNumber n
  | _ => VUndefined
  end.

(** [lastId()]. *)
Definition lastId (h : methods) (st : Inquir) : value :=
  Chek.toDefault (pop (sort (map (id_of st) (getAll h st)))) VNull.

(** ToNumber, for [ctr += 1]. *)
Definition to_number (v : value) : number :=
  match v with
  | VNumber n => n
  | VNull => Num 0
  | VBool b => Num (if b then 1 else 0)
  | _ => NaN
  end.

(** [add(name, prompt)].  The counter is advanced before the object is
    touched, so a call that throws for want of an object has used an id. *)
Definition add (h : methods) (name : pname) (prompt : option loc) (st : Inquir)
  : result (methods * Inquir) :=
  let _prompt := match name with name_object l => Some l | _ => prompt end in
  if negb (name_truthy name) then
    Normal (h, log_warn [VString "unable to add prompt using name of undefined."] st)
  else
    let nextId := succ (to_number (ctr h)) in
    let h' := {| namespace := namespace h; ctr := VNumber nextId |} in
    match _prompt with
    | Some l =>
        match heap st !! l with
        | Some o =>
            let o' := {| p_id := Some nextId;
                         p_name := name;
                         p_type := match p_type o with
                                   | Some t => if String.eqb t "" then Some "string" else Some t
                                   | None => Some "string"
                                   end;
                         p_message := p_message o;
                         p_validate := p_validate o |} in
            Normal (h', set_prompts (map_set (toNamespace (namespace h) name) l (_prompts st))
                          (set_heap (<[l := o']> (heap st)) st))
        | None => Throw "TypeError: Cannot set property 'id' of undefined" (h', st)
        end
    | None => Throw "TypeError: Cannot set property 'id' of undefined" (h', st)
    end.

(** The argument of [remove]: an id, or a name that [isNumber] of the [chek]
    package does not take for a number.  A name that begins with a letter
    is such a name; a numeric string is treated by the code like an id. *)
Inductive name_or_id := by_id (id : Z) | by_name (name : pname).

Definition remove_name (h : methods) (name : pname) (st : Inquir) : Inquir :=
  let st :=
    match name with
    | name_undefined => log [VString "Cannot remove prompt of undefined."] st
    | _ => st
    end in
  set_prompts (map_delete (toNamespace (namespace h) name) (_prompts st)) st.

(** [remove(name)].  With an id, the name is read from the result of
    [getById] without a check for null. *)
Definition remove (h : methods) (name : name_or_id) (st : Inquir) : result Inquir :=
  match name with
  | by_id id =>
      match getById h (Num id) st with
      | Some l =>
          match heap st !! l with
          | Some o => Normal (remove_name h (p_name o) st)
          | None => Normal (remove_name h name_undefined st)
          end
      | None => Throw "TypeError: Cannot read property 'name' of null" st
      end
  | by_name n => Normal (remove_name h n st)
  end.

(** [destroy()]: the list of [getAll()] is taken once, then every entry is
    removed by the name it carries, and the counter becomes undefined.  The
    names are taken as names in the sense of [name_or_id]. *)
Definition destroy (h : methods) (st : Inquir) : methods * Inquir :=
  let names := map (fun l => match heap st !! l with
                             | Some o => p_name o
                             | None => name_undefined
                             end) (getAll h st) in
  ({| namespace := namespace h; ctr := VUndefined |},
   fold_left (fun s n => remove_name h n s) names st).

(** [prompts(namespace, prompts?)]: a handle whose counter is seeded from
    [lastId()], and the initial prompts added through it. *)
Definition acquire (ns : string) (st : Inquir) : methods :=
  let h0 := {| namespace := ns; ctr := VUndefined |} in
  {| namespace := ns; ctr := Chek.toDefault (lastId h0 st) (VNumber (Num (-1))) |}.

Fixpoint add_all (h : methods) (ps : list loc) (st : Inquir) : result (methods * Inquir) :=
  match ps with
  | [] => Normal (h, st)
  | p :: rest =>
      let name := match heap st !! p with
                  | Some o => p_name o
                  | None => name_undefined
                  end in
      match add h name (Some p) st with
      | Normal (h', st') => add_all h' rest st'
      | Throw e r => Throw e r
      end
  end.

Definition prompts (ns : string) (initial : list loc) (st : Inquir)
  : result (methods * Inquir) :=
  add_all (acquire ns st) initial st.

End Registry.

(** ** The prompt engine: [prompt] and its [promptHandler] *)

Module Engine.

Record IResponse := {
  r_id : option number;
  r_name : pname;
  r_type : option string;
  r_message : string;
  answer : value;
  raw : value;
  valid : bool
}.

(** What [toPromise(fn)] hands back: [fn] itself when it has a [then]
    member, otherwise the function that [promisify] builds ([wrapped] tells
    whether [fn] was first wrapped into callback style). *)
Inductive promisified :=
| Thenable (p : promise_state)
| Promisified (wrapped : bool).

Definition toPromise (fn : handler) : promisified :=
  match fn with
  | HThenable p => Thenable p
  | HFunction arity => Promisified (arity <? 2)%nat
  end.

(** One call of [prompt]: the [responses] map it declares and the state of
    the promise it returns. *)
Record session := {
  collection : string;
  responses : list IResponse;
  returned : promise_state
}.

(** [promptHandler(prompt, answer)], with [prompt] the object that was bound
    when the question was asked.  The reaction to a settled thenable runs
    on a later tick; the state it leaves is what is given here. *)
Definition promptHandler (prompt : loc) (ans : string) (s : session * Inquir)
  : result (session * Inquir) :=
  let '(sess, st) := s in
  match heap st !! prompt with
  | None => Throw "TypeError: Cannot read property 'id' of null" s
  | Some q =>
      let resp := {| r_id := p_id q; r_name := p_name q; r_type := p_type q;
                     r_message := p_message q;
                     answer := VString ans; raw := VString ans; valid := true |} in
      let validate := toPromise (default (HFunction 0) (p_validate q)) in
      match validate with
      | Promisified _ => Throw "TypeError: validate.then is not a function" s
      | Thenable (Rejected err) =>
          Normal (sess, setDelim VUndefined (log_error [err] st))
      | Thenable (Fulfilled _) => Normal (sess, st)
      | Thenable Pending => Normal (sess, st)
      end
  end.

(** [prompt(collection)]: the question with id 0 is asked; the returned
    promise is rejected when the executor throws for want of it.  The
    second component is the bound prompt awaiting its answer. *)
Definition prompt (isTTY : bool) (coll_name : string) (st : Inquir)
  : session * option loc * Inquir :=
  let st := if _initialized st then st else init isTTY st in
  let coll := Registry.acquire coll_name st in
  let sess := {| collection := coll_name; responses := []; returned := Pending |} in
  match Registry.getById coll (Num 0) st with
  | Some l =>
      match heap st !! l with
      | Some q => (sess, Some l, emit [RlQuestion (p_message q)] st)
      | None => (sess, None, st)
      end
  | None =>
      ({| collection := coll_name; responses := [];
          returned := Rejected (VString "TypeError: Cannot read property 'message' of null") |},
       None, st)
  end.

End Engine.

(** ** [listen] *)

Module Listener.

(** [listen(handler?)].  [noop] is the default handler imported from the
    [chek] package. *)
Definition listen (noop : value) (isTTY : bool) (handler : value) (st : Inquir)
  : result Inquir :=
  let handler := or_else (or_else handler (option_of st "onInput")) noop in
  if negb (truthy handler) then
    Throw "Whoops cannot Inquir using input handler of undefined." st
  else
    let st := if _initialized st then st else init isTTY st in
    let st := setDelim VUndefined st in
    let st := set_initialized true st in
    Normal (emit [RlOn "line"; RlOn "SIGINT"; RlOn "close"] st).

End Listener.

(** ** Observations used by the statements *)

Module Observe.

Import Registry.

(** One [add] call: its name argument and its prompt argument. *)
Definition call : Type := pname * option loc.

(** The object an [add] call works on. *)
Definition subject (c : call) : option loc :=
  match fst c with name_object l => Some l | _ => snd c end.

(** A run of [add] calls through one handle; a caller that catches a thrown
    call goes on with the next. *)
Fixpoint run_adds (h : methods) (calls : list call) (st : Inquir) : methods * Inquir :=
  match calls with
  | [] => (h, st)
  | c :: rest =>
      match add h (fst c) (snd c) st with
      | Normal (h', st') | Throw _ (h', st') => run_adds h' rest st'
      end
  end.

(** The ids assigned along a run: after each call that stored its object,
    the [id] that object now carries. *)
Fixpoint add_ids (h : methods) (calls : list call) (st : Inquir) : list (option number) :=
  match calls with
  | [] => []
  | c :: rest =>
      match add h (fst c) (snd c) st with
      | Normal (h', st') =>
          (if name_truthy (fst c)
           then match subject c with Some l => [id_of st' l] | None => [] end
           else [])
          ++ add_ids h' rest st'
      | Throw _ (h', st') => add_ids h' rest st'
      end
  end.

(** The call hands over a prompt object. *)
Definition has_object (st : Inquir) (c : call) : Prop :=
  exists l, subject c = Some l /\ is_Some (heap st !! l).

(** The calls of a run that pass the guard on the name. *)
Definition named (calls : list call) : list call :=
  List.filter (fun c => name_truthy (fst c)) calls.

(** [seed + 1, seed + 2, ...], [n] of them. *)
Definition ids_from (seed : Z) (n : nat) : list (option number) :=
  map (fun i => Some (Num (seed + 1 + Z.of_nat i))) (seq 0 n).

(** The number a fresh handle for [ns] starts counting from:
    [toDefault(lastId(), -1)], which is NaN when [lastId()] is. *)
Definition seed (ns : string) (st : Inquir) : number :=
  to_number
    (Chek.toDefault (lastId {| namespace := ns; ctr := VUndefined |} st)
       (VNumber (Num (-1)))).

(** The events a computation added to the trace. *)
Definition new_events (before after : Inquir) : list event :=
  drop (length (trace before)) (trace after).

Definition is_log (e : event) : bool :=
  match e with OnLog _ | ConsoleLog _ _ => true | _ => false end.

Definition is_question (e : event) : bool :=
  match e with RlQuestion _ => true | _ => false end.

(** The one event that [log().error(err)] produces. *)
Definition error_event (st : Inquir) (err : value) : event :=
  if truthy (option_of st "onLog") then OnLog [VNumber (Num 1); err]
  else ConsoleLog (Some (Ansi (VString "ERROR") (VStrings ["red"; "dim"]))) [err].

(** The two events of [setDelim()]. *)
Definition delim_events (st : Inquir) : list event :=
  [RlSetPrompt (Ansi (or_else VUndefined (option_of st "delim")) (option_of st "delimStyle"));
   RlPrompt].

End Observe.

(** ** Sample instances *)

Module Sample.

Import Registry Observe.

Definition question (m : string) (v : option handler) : IPrompt :=
  {| p_id := None; p_name := name_undefined; p_type := None;
     p_message := m; p_validate := v |}.

(** A fresh instance, [new Inquir()], next to [n] prompt objects that the
    caller has built. *)
Definition objects (ps : list IPrompt) : gmap loc IPrompt :=
  list_to_map (imap (fun i p => (i, p)) ps).

Definition fresh (ps : list IPrompt) : Inquir :=
  {| options := {[ "name" := VString "Inquir"; "delim" := VString "inquir> ";
                   "delimStyle" := VStrings ["cyan"; "dim"];
                   "promptDelim" := VString "[?]";
                   "promptDelimStyle" := VStrings ["yellow"; "dim"];
                   "colorize" := VBool true; "completer" := VNull;
                   "onInput" := VNull; "onLog" := VNull; "onError" := VNull ]};
     _prompts := []; _initialized := false; _eventsEnabled := false;
     heap := objects ps; trace := [] |}.

Definition plain (n : nat) : list IPrompt :=
  map (fun i => question ("q" +:+ number_to_string (Num (Z.of_nat i))) None) (seq 0 n).

(** [add(name_i, object_i)] for the first [n] objects. *)
Definition calls_upto (n : nat) : list call :=
  map (fun i => (name_string ("n" +:+ number_to_string (Num (Z.of_nat i))), Some i)) (seq 0 n).

(** A registry "a" that holds ids 0 to 10. *)
Definition eleven : methods * Inquir :=
  run_adds (acquire "a" (fresh (plain 12))) (calls_upto 11) (fresh (plain 12)).

(** Three registries on one instance: "a", "ab" and "A". *)
Definition three_namespaces : Inquir :=
  let st := fresh (plain 3) in
  let st := snd (run_adds (acquire "a" st) [(name_string "x", Some 0%nat)] st) in
  let st := snd (run_adds (acquire "ab" st) [(name_string "y", Some 1%nat)] st) in
  snd (run_adds (acquire "A" st) [(name_string "z", Some 2%nat)] st).

(** A registry "wizard" whose one question carries a settled validation. *)
Definition wizard (v : promise_state) : Inquir :=
  let st := fresh [question "How old are you" (Some (HThenable v))] in
  snd (run_adds (acquire "wizard" st) [(name_string "age", Some 0%nat)] st).

Definition backspace : Mask.key :=
  {| Mask.key_name := Some "backspace"; Mask.key_ctrl := false |}.

Definition typed (buffer : string) (k : Mask.key) : Mask.state :=
  {| Mask.prompt := Some "Password: "; Mask.mask_char := "*";
     Mask.chars := buffer; Mask.lastKey := Some k; Mask.out := [] |}.

End Sample.

(** ** The constructor *)

Module Construct.

(** [DEFAULTS]; the two standard streams are objects of the process and
    are handed in. *)
Definition DEFAULTS (stdin stdout : value) : gmap string value :=
  {[ "name" := VString "Inquir";
     "input" := stdin;
     "output" := stdout;
     "delim" := VNull;
     "delimStyle" := VStrings ["cyan"; "dim"];
     "promptDelim" := VString "[?]";
     "promptDelimStyle" := VStrings ["yellow"; "dim"];
     "colorize" := VBool true;
     "completer" := VNull;
     "onInput" := VNull;
     "onLog" := VNull;
     "onError" := VNull ]}.

(** A [new] expression yields the instance or the error of its constructor. *)
Inductive constructed := Built (i : Inquir) | Failed (err : string).

(** [new Inquir(options)]: the options are merged over the defaults into an
    empty object, and a falsy [delim] is replaced by the lower-cased name
    followed by "> ". *)
Definition constructor (stdin stdout : value) (opts : option (gmap string value))
  : constructed :=
  let merged :=
    Options.extend (Options.extend ∅ (DEFAULTS stdin stdout)) (default ∅ opts) in
  let build (o : gmap string value) :=
    Built {| options := o; _prompts := []; _initialized := false;
             _eventsEnabled := false; heap := ∅; trace := [] |} in
  let delim := default VUndefined (merged !! "delim") in
  if truthy delim then build merged
  else
    match default VUndefined (merged !! "name") with
    | VString s => build (<["delim" := VString (toLowerCase s +:+ "> ")]> merged)
    | VUndefined | VNull =>
        Failed "TypeError: Cannot read property 'toLowerCase' of undefined"
    | _ => Failed "TypeError: this.options.name.toLowerCase is not a function"
    end.

End Construct.

(** ** The listeners that [listen] installs *)

Module Listeners.

(** Calls made by the listeners; those of the instance itself keep their
    [event]. *)
Inductive action :=
| Core (e : event)
| CallHandler (input : string)   (* handler(input, this) *)
| StdoutWrite (s : string)       (* process.stdout.write(s) *)
| RlCursorTo (x y : Z).          (* readline.cursorTo(rl, x, y) *)

(** WhiteSpace and LineTerminator code units below 128. *)
Definition is_space (c : ascii) : bool :=
  let n := nat_of_ascii c in
  ((n =? 9) || (n =? 10) || (n =? 11) || (n =? 12) || (n =? 13) || (n =? 32))%nat%bool.

Fixpoint trimStart (s : string) : string :=
  match s with
  | EmptyString => EmptyString
  | String c r => if is_space c then trimStart r else s
  end.

Fixpoint trimEnd (s : string) : string :=
  match s with
  | EmptyString => EmptyString
  | String c r =>
      match trimEnd r with
      | EmptyString => if is_space c then EmptyString else String c EmptyString
      | r' => String c r'
      end
  end.

Fixpoint all_space (s : string) : bool :=
  match s with
  | EmptyString => true
  | String c r => (is_space c && all_space r)%bool
  end.

(** A non-empty string without white space at either end. *)
Definition word (w : string) : Prop :=
  w <> "" /\ trimStart w = w /\ trimEnd w = w.

(** [input.trim()] on a string of code units below 128. *)
Definition trim (s : string) : string := trimEnd (trimStart s).

(** The code units below 128, on which [trim] and [toLowerCase] are
    modelled. *)
Fixpoint ascii_only (s : string) : bool :=
  match s with
  | EmptyString => true
  | String c r => ((nat_of_ascii c <? 128)%nat && ascii_only r)%bool
  end.

Definition ESC : string := String (ascii_of_nat 27) EmptyString.

(** [clearScreen()].  On Windows the number of rows is read and [forEach]
    is called on it, which a number does not have. *)
Definition clearScreen (isWindows : bool) : result (list action) :=
  if isWindows then Throw "TypeError: lines.forEach is not a function" []
  else Normal [StdoutWrite ((ESC +:+ "[2J") +:+ (ESC +:+ "[0f")); RlCursorTo 0 0].

(** The calls of [setDelim()] on an instance. *)
Definition setDelim_calls (st : Inquir) : list action :=
  map Core (drop (length (trace st)) (trace (setDelim VUndefined st))).

(** The ['line'] listener.  [handler] is what the chosen input handler does
    to the instance it is given; [exiting] is the flag that the ['close']
    listener sets. *)
Definition onLine (isWindows exiting : bool)
    (handler : string -> Inquir -> result Inquir)
    (input : string) (st : Inquir) : result (list action * Inquir) :=
  let input := trim input in
  let lowered := toLowerCase input in
  if String.eqb lowered "clear" then
    match clearScreen isWindows with
    | Normal acts => Normal (acts ++ setDelim_calls st, setDelim VUndefined st)
    | Throw e acts => Throw e (acts, st)
    end
  else if (negb (String.eqb input "") && negb exiting)%bool then
    match handler input st with
    | Normal st' =>
        Normal (CallHandler input :: setDelim_calls st', setDelim VUndefined st')
    | Throw e st' => Throw e ([CallHandler input], st')
    end
  else Normal (setDelim_calls st, setDelim VUndefined st).

(** Whether a run of the listener called the handler. *)
Definition called (r : result (list action * Inquir)) : bool :=
  match r with
  | Normal (acts, _) | Throw _ (acts, _) =>
      existsb (fun a => match a with CallHandler _ => true | _ => false end) acts
  end.

(** The handler that [listen] settles on. *)
Definition chosen (noop handler : value) (st : Inquir) : value :=
  or_else (or_else handler (option_of st "onInput")) noop.

End Listeners.

(** ** Keystrokes on a masked prompt *)

Module Keys.

Import Mask.

(** One keystroke: the [keypress] event with its key, then the [data]
    event with the characters read. *)
Definition keystroke : Type := option key * string.

Definition press (k : keystroke) (st : state) : option state :=
  inputHandler (snd k) (keypressHandler (fst k) st).

Fixpoint type (ks : list keystroke) (st : state) : option state :=
  match ks with
  | [] => Some st
  | k :: rest =>
      match press k st with
      | Some st' => type rest st'
      | None => None
      end
  end.

(** The name the handler works with: "ctrl" under the control modifier. *)
Definition key_of (k : key) : string :=
  if key_ctrl k then "ctrl"
  else match key_name k with Some n => n | None => "" end.

Definition terminator (k : key) : bool :=
  (String.eqb (key_of k) "return" || String.eqb (key_of k) "ctrl")%bool.

Definition is_write (e : event) : bool :=
  match e with Write _ => true | _ => false end.

(** A keystroke that carries a key which does not end the input. *)
Definition live (ks : keystroke) : Prop :=
  exists k, fst ks = Some k /\ terminator k = false.

(** A keystroke that carries a key. *)
Definition keyed (ks : keystroke) : Prop := exists k, fst ks = Some k.

(** How many characters a keystroke leaves in a buffer of [n]. *)
Definition buffered (n : nat) (k : key) (input : string) : nat :=
  if String.eqb (key_of k) "backspace" then (n - 2)%nat
  else (n + String.length input)%nat.

(** The length of the buffer after a run of keystrokes. *)
Definition final_length (n : nat) (kss : list keystroke) : nat :=
  fold_left (fun n ks => match fst ks with
                         | Some k => buffered n k (snd ks)
                         | None => n
                         end) kss n.

End Keys.

(** ** More observations *)

Module Outcome.

(** The state a call leaves, whether it returned or threw. *)
Definition after {A} (r : result (A * Inquir)) : Inquir :=
  match r with Normal (_, s) | Throw _ (_, s) => s end.

(** [_prompt.type || 'string']. *)
Definition type_or_string (o : IPrompt) : string :=
  match p_type o with
  | Some t => if String.eqb t "" then "string" else t
  | None => "string"
  end.

(** Strictly increasing numeric ids, all above [s]. *)
Fixpoint increasing_from (s : Z) (ids : list (option number)) : Prop :=
  match ids with
  | [] => True
  | Some (Num z) :: rest => s < z /\ increasing_from z rest
  | _ :: _ => False
  end.

(** Every stored key that the namespace pattern matches is the key of the
    name its object carries. *)
Definition own_keys (h : Registry.methods) (st : Inquir) : Prop :=
  forall k, In k (map fst (_prompts st)) ->
    test_prefix_i (Registry.namespace h) k = true ->
    exists l o, Registry.map_get k (_prompts st) = Some l /\
                heap st !! l = Some o /\
                k = Registry.toNamespace (Registry.namespace h) (p_name o).

(** The ids of the questions that [getAll()] lists. *)
Definition listed_ids (h : Registry.methods) (st : Inquir) : list (option number) :=
  map (Registry.id_of st) (Registry.getAll h st).

(** [add(name, object)] for each entry of a list of names and objects. *)
Definition calls_of (entries : list (string * loc)) : list Observe.call :=
  map (fun e => (name_string (fst e), Some (snd e))) entries.

(** The bindings these calls create in a namespace. *)
Definition store_of (ns : string) (entries : list (string * loc)) : list (string * loc) :=
  map (fun e => (Registry.toNamespace ns (name_string (fst e)), snd e)) entries.

(** A usable name with an object of the heap. *)
Definition usable (st : Inquir) (e : string * loc) : Prop :=
  fst e <> "" /\ is_Some (heap st !! snd e).

(** The names by which [destroy()] removes: those the listed objects carry. *)
Definition destroyed_names (h : Registry.methods) (st : Inquir) : list pname :=
  map (fun l => match heap st !! l with
                | Some o => p_name o
                | None => name_undefined
                end) (Registry.getAll h st).

(** A name that begins with a letter: no number, however [isNumber] of the
    [chek] package reads strings. *)
Definition letter (c : ascii) : bool :=
  let n := nat_of_ascii c in
  (((65 <=? n) && (n <=? 90)) || ((97 <=? n) && (n <=? 122)))%nat%bool.

Definition alphabetic (n : pname) : Prop :=
  match n with
  | name_string (String c _) => letter c = true
  | name_string EmptyString => False
  | _ => True
  end.

(** An id between 0 and 9. *)
Definition digit (i : option number) : Prop :=
  exists z, i = Some (Num z) /\ 0 <= z <= 9.

Definition count_events (f : event -> bool) (st : Inquir) : nat :=
  length (List.filter f (trace st)).

Definition is_create (e : event) : bool :=
  match e with CreateInterface => true | _ => false end.

Definition is_subscribe (e : event) : bool :=
  match e with ProcessOn _ _ => true | _ => false end.

End Outcome.

(** ** More sample instances *)

Module Cases.

Import Registry Observe Outcome.

(** A fresh instance next to three prompt objects. *)
Definition three : Inquir := Sample.fresh (Sample.plain 3).

Definition xyz : list (string * loc) := [("x", 0%nat); ("y", 1%nat); ("z", 2%nat)].

(** The registry "a" holding the three of them. *)
Definition filled : methods * Inquir :=
  run_adds (acquire "a" three) (calls_of xyz) three.

(** A registry "wizard" whose one question has the given validator. *)
Definition wizard_with (v : option handler) : Inquir :=
  let st := Sample.fresh [Sample.question "How old are you" v] in
  snd (run_adds (acquire "wizard" st) [(name_string "age", Some 0%nat)] st).

(** The registries "a" and "ab" with one question each, and a third
    object not yet added. *)
Definition beside : Inquir :=
  let st := snd (run_adds (acquire "a" three) [(name_string "x", Some 0%nat)] three) in
  snd (run_adds (acquire "ab" st) [(name_string "y", Some 1%nat)] st).

(** A handler that sets nothing and returns. *)
Definition quiet (input : string) (st : Inquir) : result Inquir := Normal st.

Definition letter_a : Mask.key :=
  {| Mask.key_name := Some "a"; Mask.key_ctrl := false |}.

Definition enter : Mask.key :=
  {| Mask.key_name := Some "return"; Mask.key_ctrl := false |}.

End Cases.

(** * Properties *)

(** ** Session options *)

Section OptionsFacts.

Context {V : Type}.
Implicit Types (options : gmap string V) (k : string) (v : V).

Lemma getOption_extend_l options (obj : gmap string V) k v :
  obj !! k = Some v -> Options.getOption (Options.extend options obj) k = Some v.
Proof.
  intros Hk. unfold Options.getOption, Options.extend.
  by apply lookup_union_Some_l.
Qed.

Lemma getOption_extend_r options (obj : gmap string V) k :
  obj !! k = None ->
  Options.getOption (Options.extend options obj) k = Options.getOption options k.
Proof.
  intros Hk. unfold Options.getOption, Options.extend.
  by apply lookup_union_r.
Qed.

(** C10. After [setOption(k, v)], [getOption(k)] is [v], and [getOption] of
    any other key [k'] is what it was before the call. *)
Theorem setOption_getOption options k k' v :
  k' <> k ->
  Options.getOption (Options.setOption options (inl k) v) k = Some v /\
  Options.getOption (Options.setOption options (inl k) v) k'
    = Options.getOption options k'.
Proof.
  intros Hne. unfold Options.setOption. split.
  - apply getOption_extend_l. apply lookup_insert_eq.
  - apply getOption_extend_r. rewrite lookup_insert_ne by congruence.
    apply lookup_empty.
Qed.

(** The object form writes every key of the object it is given. *)
Lemma setOption_object options (obj : gmap string V) k v v' :
  obj !! k = Some v ->
  Options.getOption (Options.setOption options (inr obj) v') k = Some v.
Proof. intros Hk. unfold Options.setOption. by apply getOption_extend_l. Qed.

End OptionsFacts.

Lemma setOption_getOption_witness :
  "name" <> "delim" /\
  Options.getOption
    (Options.setOption (options (Sample.fresh [])) (inl "delim") (VString "$ ")) "delim"
    = Some (VString "$ ") /\
  Options.getOption
    (Options.setOption (options (Sample.fresh [])) (inl "delim") (VString "$ ")) "name"
    = Options.getOption (options (Sample.fresh [])) "name".
Proof.
  assert (Hne : "name" <> "delim") by discriminate.
  split; [exact Hne |].
  exact (setOption_getOption (options (Sample.fresh [])) "delim" "name" (VString "$ ") Hne).
Defined.

(** ** Completion resolver *)

Section CompletionFacts.

Import Completion.

Lemma filter_spec line comps c :
  In c (filter line comps) <-> In c comps /\ String.prefix line c = true.
Proof. unfold filter, startsWith. apply filter_In. Qed.

Lemma completionHandler_array comps line :
  completionHandler (completer_array comps) line = Returns (filter line comps) line.
Proof. destruct comps; reflexivity. Qed.

(** C7. Without a completion source, or with an empty list, the resolver
    reports no completions and hands the line back; with a fixed list it
    returns, in the order of the list, exactly the candidates that the line
    is a prefix of. *)
Theorem completion_filtering :
  (forall line, completionHandler completer_null line = Returns [] line) /\
  (forall line, completionHandler (completer_array []) line = Returns [] line) /\
  (forall comps line,
      completionHandler (completer_array comps) line
        = Returns (List.filter (fun c => String.prefix line c) comps) line /\
      forall c, In c (List.filter (fun c => String.prefix line c) comps)
                <-> In c comps /\ String.prefix line c = true) /\
  completionHandler (completer_array ["add"; "remove"; "list"]) "a"
    = Returns ["add"] "a".
Proof.
  split; [reflexivity |]. split; [reflexivity |]. split; [| reflexivity].
  intros comps line. split.
  - apply completionHandler_array.
  - intros c. apply filter_In.
Qed.

End CompletionFacts.

(** ** Masked input *)

Section MaskFacts.

Import Mask.

Lemma length_substring_0 n s :
  String.length (String.substring 0 n s) = Nat.min n (String.length s).
Proof.
  revert n. induction s as [| c s IH]; intros [| n]; simpl; auto.
Qed.

Lemma length_slice0_minus_two s :
  String.length (slice0 s (Z.of_nat (String.length s) - 2))
    = (String.length s - 2)%nat.
Proof.
  unfold slice0. rewrite length_substring_0.
  destruct (Z.ltb_spec (Z.of_nat (String.length s) - 2) 0); lia.
Qed.

(** A backspace on a live prompt leaves a buffer two characters shorter
    (empty when it held fewer than two). *)
Lemma backspace_length input st k p :
  lastKey st = Some k -> key_ctrl k = false -> key_name k = Some "backspace" ->
  prompt st = Some p -> p <> "" ->
  exists st', inputHandler input st = Some st' /\
    String.length (chars st') = (String.length (chars st) - 2)%nat /\
    out st' = out st ++ [ClearLine; CursorTo 0;
                         Write (p +:+ JS.repeat (mask_char st) (String.length (chars st')))].
Proof.
  intros Hk Hc Hn Hp Hne. unfold inputHandler. rewrite Hk, Hc, Hn, Hp. simpl.
  destruct (String.eqb_spec p "") as [-> | _]; [congruence |].
  eexists. split; [reflexivity |]. simpl. split.
  - apply length_slice0_minus_two.
  - reflexivity.
Qed.

(** Any other key that is not a terminator appends the input and redraws
    with one mask per buffered character. *)
Lemma keystroke_appends input st k p name :
  lastKey st = Some k -> key_ctrl k = false -> key_name k = Some name ->
  name <> "return" -> name <> "ctrl" -> name <> "backspace" ->
  prompt st = Some p -> p <> "" ->
  exists st', inputHandler input st = Some st' /\
    chars st' = chars st +:+ input /\
    out st' = out st ++ [ClearLine; CursorTo 0;
                         Write (p +:+ JS.repeat (mask_char st) (String.length (chars st')))].
Proof.
  intros Hk Hc Hn H1 H2 H3 Hp Hne. unfold inputHandler. rewrite Hk, Hc, Hn, Hp.
  destruct (String.eqb_spec name "return"); [congruence |].
  destruct (String.eqb_spec name "ctrl"); [congruence |].
  destruct (String.eqb_spec name "backspace"); [congruence |].
  destruct (String.eqb_spec p ""); [congruence |].
  simpl. eexists. repeat split.
Qed.

(** C9. With "abc" in the buffer, one backspace leaves "a": the buffer
    loses two characters, and the line is redrawn with one mask. *)
Theorem backspace_drops_two :
  option_map chars (inputHandler (String (ascii_of_nat 127) "") (Sample.typed "abc" Sample.backspace))
    = Some "a" /\
  option_map out (inputHandler (String (ascii_of_nat 127) "") (Sample.typed "abc" Sample.backspace))
    = Some [ClearLine; CursorTo 0; Write "Password: *"].
Proof. split; reflexivity. Qed.

End MaskFacts.

(** ** [listen] *)

Section ListenFacts.

Import Listener.

(** C8. With no handler argument, no [onInput] option and no default
    handler, [listen] throws at once: the instance is left as it was, so
    neither the readline interface nor the delimiter has been touched. *)
Theorem listen_without_handler noop isTTY handler st :
  truthy handler = false ->
  truthy (option_of st "onInput") = false ->
  truthy noop = false ->
  listen noop isTTY handler st
    = Throw "Whoops cannot Inquir using input handler of undefined." st.
Proof.
  intros Hh Ho Hn. unfold listen, or_else. rewrite Hh, Ho, Hn. reflexivity.
Qed.

(** With a default handler at hand the guard never fires. *)
Lemma listen_with_default noop isTTY handler st :
  truthy noop = true -> exists st', listen noop isTTY handler st = Normal st'.
Proof.
  intros Hn. unfold listen.
  assert (Ht : truthy (or_else (or_else handler (option_of st "onInput")) noop) = true).
  { unfold or_else.
    destruct (truthy handler) eqn:Hh; [by rewrite Hh |].
    destruct (truthy (option_of st "onInput")) eqn:Ho; [by rewrite Ho |].
    exact Hn. }
  rewrite Ht. simpl. eauto.
Qed.

End ListenFacts.

Lemma listen_without_handler_witness :
  truthy VUndefined = false /\
  truthy (option_of (Sample.fresh []) "onInput") = false /\
  Listener.listen VUndefined true VUndefined (Sample.fresh [])
    = Throw "Whoops cannot Inquir using input handler of undefined." (Sample.fresh []).
Proof.
  assert (Hh : truthy VUndefined = false) by reflexivity.
  assert (Ho : truthy (option_of (Sample.fresh []) "onInput") = false) by reflexivity.
  split; [exact Hh |]. split; [exact Ho |].
  exact (listen_without_handler VUndefined true VUndefined (Sample.fresh []) Hh Ho Hh).
Defined.

(** ** The question registry *)

Section RegistryFacts.

Import Registry Observe.

Lemma heap_emit evs st : heap (emit evs st) = heap st.
Proof. reflexivity. Qed.

Lemma heap_logger args st : heap (logger args st) = heap st.
Proof.
  unfold logger. destruct (truthy _); [reflexivity |].
  destruct (EventState_label _); reflexivity.
Qed.

Lemma prompts_logger args st : _prompts (logger args st) = _prompts st.
Proof.
  unfold logger. destruct (truthy _); [reflexivity |].
  destruct (EventState_label _); reflexivity.
Qed.

(** A call with a usable name and an object stores the object under the
    next value of the counter. *)
Lemma add_named h n p st l o :
  name_truthy n = true -> subject (n, p) = Some l -> heap st !! l = Some o ->
  exists st',
    add h n p st
      = Normal ({| namespace := namespace h;
                   ctr := VNumber (succ (to_number (ctr h))) |}, st') /\
    id_of st' l = Some (succ (to_number (ctr h))) /\
    get h n st' = Some l /\
    (forall l', is_Some (heap st' !! l') <-> is_Some (heap st !! l')).
Proof.
  intros Hn Hs Ho. unfold subject in Hs. simpl in Hs.
  unfold add. rewrite Hn, Hs, Ho. simpl.
  eexists. split; [reflexivity |]. split; [| split].
  - unfold id_of. simpl. by rewrite lookup_insert_eq.
  - unfold get. simpl.
    generalize (toNamespace (namespace h) n) as k.
    intros k. induction (_prompts st) as [| [k' v'] m IH]; simpl.
    + by rewrite String.eqb_refl.
    + destruct (String.eqb k k') eqn:Hk; simpl; rewrite ?String.eqb_refl, ?Hk; auto.
  - intros l'. simpl. destruct (decide (l = l')) as [<- | Hne].
    + rewrite lookup_insert_eq, Ho. split; eauto.
    + by rewrite lookup_insert_ne.
Qed.

(** A call whose name is undefined or empty only logs a warning. *)
Lemma add_unnamed h n p st :
  name_truthy n = false ->
  add h n p st
    = Normal (h, log_warn [VString "unable to add prompt using name of undefined."] st).
Proof. intros Hn. unfold add. by rewrite Hn. Qed.

Lemma ids_from_S seed n :
  ids_from seed (S n) = Some (Num (seed + 1)) :: ids_from (seed + 1) n.
Proof.
  unfold ids_from. simpl. f_equal.
  - do 2 f_equal. lia.
  - rewrite <- seq_shift, map_map. apply map_ext. intros i. do 2 f_equal. lia.
Qed.

Lemma has_object_heap st st' c :
  (forall l, is_Some (heap st' !! l) <-> is_Some (heap st !! l)) ->
  has_object st c -> has_object st' c.
Proof. intros Hdom (l & Hs & Hl). exists l. split; [done |]. by apply Hdom. Qed.

(** Through a handle whose counter stands at [s], the objects stored by a
    run of calls receive [s + 1], [s + 2], ... in call order. *)
Lemma add_ids_from calls : forall h st s,
  ctr h = VNumber (Num s) ->
  Forall (has_object st) calls ->
  add_ids h calls st = ids_from s (length (named calls)).
Proof.
  induction calls as [| [n p] rest IH]; intros h st s Hctr Hall; [reflexivity |].
  apply Forall_cons in Hall as [(l & Hs & [o Ho]) Hrest].
  cbn [add_ids named List.filter fst snd]. destruct (name_truthy n) eqn:Hn.
  - destruct (add_named h n p st l o Hn Hs Ho) as (st' & Hadd & Hid & _ & Hdom).
    rewrite Hadd, Hs, Hid, Hctr. cbn [length app to_number succ].
    rewrite ids_from_S. f_equal.
    apply IH; [reflexivity |].
    eapply Forall_impl; [exact Hrest |]. intros c. by apply has_object_heap.
  - rewrite (add_unnamed h n p st Hn). cbn [app].
    apply IH; [done |].
    eapply Forall_impl; [exact Hrest |]. intros c. apply has_object_heap.
    intros l'. unfold log_warn. by rewrite heap_logger.
Qed.

(** Once the counter is not a number, every stored object receives NaN. *)
Lemma add_ids_NaN calls : forall h st,
  to_number (ctr h) = NaN ->
  Forall (has_object st) calls ->
  add_ids h calls st = replicate (length (named calls)) (Some NaN).
Proof.
  induction calls as [| [n p] rest IH]; intros h st Hctr Hall; [reflexivity |].
  apply Forall_cons in Hall as [(l & Hs & [o Ho]) Hrest].
  cbn [add_ids named List.filter fst snd]. destruct (name_truthy n) eqn:Hn.
  - destruct (add_named h n p st l o Hn Hs Ho) as (st' & Hadd & Hid & _ & Hdom).
    rewrite Hadd, Hs, Hid, Hctr. cbn [length app replicate].
    f_equal. apply IH; [reflexivity |].
    eapply Forall_impl; [exact Hrest |]. intros c. by apply has_object_heap.
  - rewrite (add_unnamed h n p st Hn). cbn [app].
    apply IH; [done |].
    eapply Forall_impl; [exact Hrest |]. intros c. apply has_object_heap.
    intros l'. unfold log_warn. by rewrite heap_logger.
Qed.

(** The counter of a fresh handle is always a number, NaN included. *)
Lemma acquire_ctr ns st : ctr (acquire ns st) = VNumber (seed ns st).
Proof.
  unfold acquire, seed, lastId, pop. simpl.
  destruct (last _) as [[[z |] |] |]; reflexivity.
Qed.

Lemma lastId_empty h st : getAll h st = [] -> lastId h st = VNull.
Proof. intros He. unfold lastId. by rewrite He. Qed.

Lemma seed_empty ns st :
  getAll {| namespace := ns; ctr := VUndefined |} st = [] -> seed ns st = Num (-1).
Proof. intros He. unfold seed. by rewrite lastId_empty. Qed.

End RegistryFacts.

(** *** Keys of different namespaces *)

Lemma length_append (a b : string) :
  String.length (a +:+ b) = (String.length a + String.length b)%nat.
Proof.
  induction a as [| c a IH]; [reflexivity |].
  unfold String.append; fold String.append. simpl. by rewrite IH.
Qed.

Lemma append_cancel_r (a b s : string) : a +:+ s = b +:+ s -> a = b.
Proof.
  revert b. induction a as [| c a IH]; intros [| d b] H.
  - reflexivity.
  - apply (f_equal String.length) in H. rewrite !length_append in H. simpl in H. lia.
  - apply (f_equal String.length) in H. rewrite !length_append in H. simpl in H. lia.
  - unfold String.append in H; fold String.append in H.
    injection H as -> H. f_equal. by apply IH.
Qed.

(** Two registries never store a question of one name under one key. *)
Lemma toNamespace_isolated ns1 ns2 name :
  ns1 <> ns2 -> Registry.toNamespace ns1 name <> Registry.toNamespace ns2 name.
Proof.
  intros Hne H. apply Hne. unfold Registry.toNamespace in H.
  by apply append_cancel_r in H.
Qed.

(** *** Identifiers *)

(** C2. Two runs in which the ids do not start at 0 or are handed out
    twice.  A first handle for the registry "A", which holds no question,
    is seeded from the questions of "a" and "ab" that [getAll()] lists for
    it, and gives its first question id 1.  A handle acquired again on a
    registry holding the ids 0 to 10 is seeded with 9, and gives its first
    question id 10, which another question carries already. *)
Theorem ids_restart_and_repeat :
  (map fst (_prompts Cases.beside) = ["a:x"; "ab:y"] /\
   Observe.add_ids (Registry.acquire "A" Cases.beside)
     [(name_string "z", Some 2%nat)] Cases.beside = [Some (Num 1)]) /\
  (Registry.id_of (snd Sample.eleven) 10%nat = Some (Num 10) /\
   Observe.add_ids (Registry.acquire "a" (snd Sample.eleven))
     [(name_string "n11", Some 11%nat)] (snd Sample.eleven) = [Some (Num 10)]).
Proof. vm_compute. repeat split. Qed.

(** C4. After [destroy()] the counter is undefined, and the next [add]
    stores its question with id NaN. *)
Theorem add_after_destroy :
  let st0 := Sample.fresh (Sample.plain 2) in
  let r1 := Observe.run_adds (Registry.acquire "a" st0)
              [(name_string "x", Some 0%nat)] st0 in
  let r2 := Registry.destroy (fst r1) (snd r1) in
  _prompts (snd r2) = [] /\
  Registry.ctr (fst r2) = VUndefined /\
  Observe.add_ids (fst r2) [(name_string "y", Some 1%nat)] (snd r2) = [Some NaN].
Proof. vm_compute. repeat split. Qed.

Lemma heap_remove_name h n st :
  heap (Registry.remove_name h n st) = heap st.
Proof.
  unfold Registry.remove_name. simpl.
  destruct n; simpl; try done. unfold log. by rewrite heap_logger.
Qed.

Lemma heap_destroy h st : heap (snd (Registry.destroy h st)) = heap st.
Proof.
  unfold Registry.destroy. simpl.
  generalize (map (fun l0 => match heap st !! l0 with
                              | Some o => p_name o
                              | None => name_undefined
                              end) (Registry.getAll h st)).
  intros names. revert st.
  induction names as [| n names IH]; intros s; [done |].
  simpl. rewrite IH. apply heap_remove_name.
Qed.

(** The same holds from any state in which the names that [destroy()]
    removes by begin with a letter. *)
Lemma add_ids_after_destroy h st calls :
  literal_pattern (Registry.namespace h) = true ->
  Forall Outcome.alphabetic (Outcome.destroyed_names h st) ->
  Forall (Observe.has_object st) calls ->
  Observe.add_ids (fst (Registry.destroy h st)) calls (snd (Registry.destroy h st))
    = replicate (length (Observe.named calls)) (Some NaN).
Proof.
  intros _ _ Hall. apply add_ids_NaN; [reflexivity |].
  eapply Forall_impl; [exact Hall |]. intros c. apply has_object_heap.
  intros l. by rewrite heap_destroy.
Qed.

(** A handle acquired after [destroy()] and one more [add] finds the id
    NaN, is seeded with it, and hands out NaN in turn. *)
Lemma reacquired_after_destroy :
  let st0 := Sample.fresh (Sample.plain 3) in
  let r1 := Observe.run_adds (Registry.acquire "a" st0)
              [(name_string "x", Some 0%nat)] st0 in
  let r2 := Registry.destroy (fst r1) (snd r1) in
  let r3 := Observe.run_adds (fst r2) [(name_string "y", Some 1%nat)] (snd r2) in
  Registry.lastId (fst r3) (snd r3) = VNumber NaN /\
  Observe.seed "a" (snd r3) = NaN /\
  Observe.add_ids (Registry.acquire "a" (snd r3))
    [(name_string "z", Some 2%nat)] (snd r3) = [Some NaN].
Proof. vm_compute. repeat split. Qed.

(** *** Listing and lookup *)

(** C3. With the registries "a", "ab" and "A" on one instance, [getAll()]
    of "a" returns the questions of all three. *)
Theorem getAll_crosses_namespaces :
  map fst (_prompts Sample.three_namespaces) = ["a:x"; "ab:y"; "A:z"] /\
  Registry.getAll (Registry.acquire "a" Sample.three_namespaces) Sample.three_namespaces
    = [0; 1; 2]%nat /\
  Registry.get (Registry.acquire "ab" Sample.three_namespaces) (name_string "y")
    Sample.three_namespaces = Some 1%nat /\
  Registry.get (Registry.acquire "A" Sample.three_namespaces) (name_string "z")
    Sample.three_namespaces = Some 2%nat.
Proof. vm_compute. repeat split. Qed.

(** C5. On a registry that holds the ids 0 to 10, [lastId()] is 9: the
    ids are sorted as strings, and "9" comes after "10". *)
Theorem lastId_of_eleven :
  map (Registry.id_of (snd Sample.eleven))
      (Registry.getAll (fst Sample.eleven) (snd Sample.eleven))
    = map (fun i => Some (Num (Z.of_nat i))) (seq 0 11) /\
  Registry.lastId (fst Sample.eleven) (snd Sample.eleven) = VNumber (Num 9).
Proof. vm_compute. split; reflexivity. Qed.

(** C6. [remove(42)] on a registry without id 42 throws a TypeError; no
    message is logged and the store is left as it was. *)
Theorem remove_absent_id :
  Registry.getById (fst Sample.eleven) (Num 42) (snd Sample.eleven) = None /\
  Registry.remove (fst Sample.eleven) (Registry.by_id 42) (snd Sample.eleven)
    = Throw "TypeError: Cannot read property 'name' of null" (snd Sample.eleven).
Proof. split; [vm_compute; reflexivity |]. by vm_compute. Qed.

(** The same holds for every id that [getById] does not find. *)
Lemma remove_absent_id_throws h id st :
  Registry.getById h (Num id) st = None ->
  Registry.remove h (Registry.by_id id) st
    = Throw "TypeError: Cannot read property 'name' of null" st.
Proof. intros Hn. unfold Registry.remove. by rewrite Hn. Qed.

(** ** The prompt engine *)

Section EngineFacts.

Import Engine Observe.

Lemma log_error_event err st :
  log_error [err] st = emit [error_event st err] st.
Proof.
  unfold log_error, logger, error_event. simpl.
  destruct (truthy (option_of st "onLog")); reflexivity.
Qed.

Lemma setDelim_events st : setDelim VUndefined st = emit (delim_events st) st.
Proof. reflexivity. Qed.

Lemma delim_events_emit evs st : delim_events (emit evs st) = delim_events st.
Proof. reflexivity. Qed.

Lemma is_log_error_event st err : is_log (error_event st err) = true.
Proof. unfold error_event. by destruct (truthy _). Qed.

Lemma is_question_error_event st err : is_question (error_event st err) = false.
Proof. unfold error_event. by destruct (truthy _). Qed.

(** A validate handler that is a function, or no handler at all, makes
    [promptHandler] throw: [toPromise] hands back a function, which has no
    [then]. *)
Lemma promptHandler_function l q ans sess st :
  heap st !! l = Some q ->
  (p_validate q = None \/ exists arity, p_validate q = Some (HFunction arity)) ->
  promptHandler l ans (sess, st)
    = Throw "TypeError: validate.then is not a function" (sess, st).
Proof.
  intros Hq Hv. unfold promptHandler. rewrite Hq.
  destruct Hv as [-> | [arity ->]]; reflexivity.
Qed.

(** On the one path that gets past [toPromise], a [validate] that is itself
    a thenable: when it is rejected, one error is logged under the error
    label and the delimiter is redrawn; when it resolves nothing happens;
    in neither case is a response recorded or a question asked. *)
Lemma promptHandler_thenable l q p ans sess st :
  heap st !! l = Some q ->
  p_validate q = Some (HThenable p) ->
  exists st' evs,
    promptHandler l ans (sess, st) = Normal (sess, st') /\
    trace st' = trace st ++ evs /\
    evs = match p with
          | Rejected err => error_event st err :: delim_events st
          | _ => []
          end /\
    List.filter is_question evs = [] /\
    length (List.filter is_log evs)
      = match p with Rejected _ => 1%nat | _ => 0%nat end.
Proof.
  intros Hq Hv. unfold promptHandler. rewrite Hq, Hv. simpl.
  destruct p as [| v | err].
  - exists st, []. by rewrite app_nil_r.
  - exists st, []. by rewrite app_nil_r.
  - eexists _, _. split; [reflexivity |].
    rewrite log_error_event, setDelim_events, delim_events_emit. simpl.
    rewrite <- app_assoc. split; [reflexivity |]. split; [reflexivity |].
    simpl. by rewrite is_question_error_event, is_log_error_event.
Qed.

End EngineFacts.

(** C1. A question whose [validate] is a function is asked, and the first
    answer already makes the handler throw a TypeError before the function
    is called: no error is logged, the delimiter is not redrawn, the
    question is not asked again, and neither this answer nor a second one
    leaves a response or settles the promise. *)
Theorem function_validate_throws :
  let '(sess, asked, st) :=
    Engine.prompt true "wizard" (Cases.wizard_with (Some (HFunction 2))) in
  asked = Some 0%nat /\
  List.filter Observe.is_question (trace st) = [RlQuestion "How old are you"] /\
  Engine.responses sess = [] /\ Engine.returned sess = Pending /\
  Engine.promptHandler 0%nat "abc" (sess, st)
    = Throw "TypeError: validate.then is not a function" (sess, st) /\
  Engine.promptHandler 0%nat "30" (sess, st)
    = Throw "TypeError: validate.then is not a function" (sess, st).
Proof. vm_compute. repeat split. Qed.

(** * Further properties *)

(** ** The store *)

Section StoreFacts.

Import Registry.

Implicit Types (m : list (string * loc)) (k : string) (v : loc).

Lemma map_get_set_eq k v m : map_get k (map_set k v m) = Some v.
Proof.
  induction m as [| [k' v'] m IH]; simpl.
  - by rewrite String.eqb_refl.
  - destruct (String.eqb k k') eqn:Hk; simpl; rewrite ?String.eqb_refl, ?Hk; auto.
Qed.

Lemma map_get_set_ne k k' v m :
  k <> k' -> map_get k' (map_set k v m) = map_get k' m.
Proof.
  intros Hne. induction m as [| [k0 v0] m IH]; simpl.
  - destruct (String.eqb_spec k' k); [congruence | done].
  - destruct (String.eqb_spec k k0) as [-> | Hk]; simpl.
    + destruct (String.eqb_spec k' k0); [congruence | done].
    + destruct (String.eqb_spec k' k0); [done | exact IH].
Qed.

Lemma map_get_In k m : In k (map fst m) <-> is_Some (map_get k m).
Proof.
  induction m as [| [k' v'] m IH]; simpl.
  - split; [done | by intros [? ?]].
  - destruct (String.eqb_spec k k') as [-> | Hk].
    + split; eauto.
    + rewrite <- IH. split; [intros [? | ?]; [congruence | done] | auto].
Qed.

Lemma keys_map_set k v m :
  map fst (map_set k v m)
    = if map_has k m then map fst m else map fst m ++ [k].
Proof.
  unfold map_has. induction m as [| [k' v'] m IH]; simpl; [done |].
  destruct (String.eqb_spec k k') as [-> | Hk]; simpl; [done |].
  rewrite IH. by destruct (map_get k m).
Qed.

Lemma map_get_delete_eq k m : map_get k (map_delete k m) = None.
Proof.
  unfold map_delete. induction m as [| [k' v'] m IH]; simpl; [done |].
  destruct (String.eqb_spec k k') as [-> | Hk]; simpl; [done |].
  destruct (String.eqb_spec k k'); [congruence | done].
Qed.

Lemma map_get_delete_ne k k' m :
  k <> k' -> map_get k' (map_delete k m) = map_get k' m.
Proof.
  intros Hne. unfold map_delete.
  induction m as [| [k0 v0] m IH]; simpl; [done |].
  destruct (String.eqb_spec k k0) as [-> | Hk]; simpl.
  - destruct (String.eqb_spec k' k0); [congruence | done].
  - by rewrite IH.
Qed.

Lemma map_delete_absent k m : map_get k m = None -> map_delete k m = m.
Proof.
  unfold map_delete. induction m as [| [k' v'] m IH]; simpl; [done |].
  destruct (String.eqb_spec k k') as [-> | Hk]; simpl; [done |].
  intros H. by rewrite IH.
Qed.

Lemma keys_map_delete k m :
  map fst (map_delete k m) = List.filter (fun k' => negb (String.eqb k k')) (map fst m).
Proof.
  unfold map_delete. induction m as [| [k' v'] m IH]; simpl; [done |].
  destruct (String.eqb k k'); simpl; by rewrite IH.
Qed.

End StoreFacts.

(** ** Adding, looking up and removing *)

Section RegistryMore.

Import Registry Observe Outcome.

(** X1. An [add] with a usable name and an object stores that very object
    under the namespaced name: [get] and [exists] find it at once, and the
    object now carries the next id, the name it was added under and its own
    type or "string", with its message and validator untouched. *)
Theorem add_then_get h n p st l o :
  name_truthy n = true -> subject (n, p) = Some l -> heap st !! l = Some o ->
  exists h' st',
    add h n p st = Normal (h', st') /\
    get h' n st' = Some l /\
    exists_ h' n st' = true /\
    heap st' !! l
      = Some {| p_id := Some (succ (to_number (ctr h)));
                p_name := n;
                p_type := Some (type_or_string o);
                p_message := p_message o;
                p_validate := p_validate o |}.
Proof.
  intros Hn Hs Ho. unfold subject in Hs. simpl in Hs.
  unfold add. rewrite Hn, Hs, Ho. simpl.
  eexists _, _. split; [reflexivity |].
  unfold exists_, get, map_has. simpl. rewrite map_get_set_eq.
  split; [done |]. split; [done |].
  rewrite lookup_insert_eq. unfold type_or_string.
  destruct (p_type o) as [t |]; [destruct (String.eqb t "") |]; reflexivity.
Qed.

Lemma add_frame_holds h n p st k' l' :
  (k' <> toNamespace (namespace h) n ->
   map_get k' (_prompts (after (add h n p st))) = map_get k' (_prompts st)) /\
  (subject (n, p) <> Some l' ->
   heap (after (add h n p st)) !! l' = heap st !! l') /\
  options (after (add h n p st)) = options st.
Proof.
  unfold add, subject, after. simpl.
  destruct (name_truthy n); simpl.
  2: { unfold log_warn. rewrite prompts_logger, heap_logger.
       repeat split; try done.
       unfold logger. destruct (truthy _); reflexivity. }
  destruct (match n with name_object l => Some l | _ => p end) as [l |]; simpl;
    [| done].
  destruct (heap st !! l) as [o |] eqn:Ho; simpl; [| done].
  split; [| split; [| done]].
  - intros Hk. by apply map_get_set_ne.
  - intros Hl. apply lookup_insert_ne. congruence.
Qed.

(** X2. Whatever an [add] call does, return or throw, every other key of
    the store keeps its object, every other object keeps its fields, and
    the options are not touched. *)
Theorem add_frame h n p st k' l' :
  (k' <> toNamespace (namespace h) n ->
   map_get k' (_prompts (after (add h n p st))) = map_get k' (_prompts st)) /\
  (subject (n, p) <> Some l' ->
   heap (after (add h n p st)) !! l' = heap st !! l') /\
  options (after (add h n p st)) = options st.
Proof. apply add_frame_holds. Qed.

(** X3. [add] under a name that is already stored leaves the order of the
    keys as it was, so the question keeps its old place in [getAll()];
    under a new name the key goes to the end. *)
Theorem add_keeps_position h n p st l o :
  name_truthy n = true -> subject (n, p) = Some l -> heap st !! l = Some o ->
  map fst (_prompts (after (add h n p st)))
    = if exists_ h n st then map fst (_prompts st)
      else map fst (_prompts st) ++ [toNamespace (namespace h) n].
Proof.
  intros Hn Hs Ho. unfold subject in Hs. simpl in Hs.
  unfold add, after, exists_. rewrite Hn, Hs, Ho. simpl.
  apply keys_map_set.
Qed.

Lemma test_prefix_i_app ns r : test_prefix_i ns (ns +:+ r) = true.
Proof.
  induction ns as [| c ns IH]; [reflexivity |].
  unfold String.append; fold String.append. simpl.
  by rewrite Ascii.eqb_refl, IH.
Qed.

Lemma elem_of_omap_get (m : list (string * loc)) (P : string -> bool) k l :
  In k (map fst m) -> P k = true -> map_get k m = Some l ->
  In l (omap (fun k => map_get k m) (List.filter P (map fst m))).
Proof.
  intros Hin HP Hget. apply list_elem_of_In, list_elem_of_omap.
  exists k. split; [| done]. apply list_elem_of_In, filter_In. done.
Qed.

(** X4. Whatever [get(name)] finds is among the questions that [getAll()]
    lists.  The namespace is free of regular-expression metacharacters. *)
Theorem get_listed h n st l :
  literal_pattern (namespace h) = true ->
  get h n st = Some l -> In l (getAll h st).
Proof.
  unfold get, getAll. intros _ Hget.
  apply elem_of_omap_get with (k := toNamespace (namespace h) n); [| | done].
  - apply map_get_In. by rewrite Hget.
  - unfold toNamespace. apply test_prefix_i_app.
Qed.

(** X5. [remove(name)] with a string that begins with a letter never throws
    and logs nothing; the
    name is gone afterwards, every other key keeps its object, no object
    is changed, and removing a name that is not stored changes nothing. *)
Theorem remove_by_name h s st :
  alphabetic (name_string s) ->
  exists st',
    remove h (by_name (name_string s)) st = Normal st' /\
    exists_ h (name_string s) st' = false /\
    (forall k', k' <> toNamespace (namespace h) (name_string s) ->
                map_get k' (_prompts st') = map_get k' (_prompts st)) /\
    heap st' = heap st /\ trace st' = trace st /\
    (exists_ h (name_string s) st = false -> st' = st).
Proof.
  intros _. eexists. split; [reflexivity |].
  unfold remove_name, exists_, map_has. simpl.
  rewrite map_get_delete_eq. split; [done |].
  split; [intros k' Hk; by apply map_get_delete_ne |].
  split; [done |]. split; [done |].
  intros Hex. destruct (map_get _ _) eqn:Hget; [done |].
  rewrite (map_delete_absent _ _ Hget). by destruct st.
Qed.

(** X6. [remove(undefined)] logs one message and then deletes the entry
    that a question named "undefined" has. *)
Theorem remove_undefined h st :
  exists st',
    remove h (by_name name_undefined) st = Normal st' /\
    length (List.filter is_log (new_events st st')) = 1%nat /\
    get h (name_string "undefined") st' = None.
Proof.
  eexists. split; [reflexivity |]. split.
  - unfold remove_name, new_events, log, logger. simpl.
    destruct (truthy _); simpl; by rewrite drop_app_length.
  - unfold get, remove_name. simpl. apply map_get_delete_eq.
Qed.

Lemma head_filter_Some {A} (P : A -> bool) (l : list A) x :
  head (List.filter P l) = Some x -> In x l /\ P x = true.
Proof.
  intros H. assert (Hin : In x (List.filter P l)).
  { destruct (List.filter P l); simplify_eq/=. by left. }
  by apply filter_In in Hin.
Qed.

Lemma head_filter_None {A} (P : A -> bool) (l : list A) :
  head (List.filter P l) = None <-> forall x, In x l -> P x = false.
Proof.
  split.
  - intros H x Hx. destruct (P x) eqn:HP; [| done].
    assert (Hin : In x (List.filter P l)) by (by apply filter_In).
    destruct (List.filter P l); [done | discriminate].
  - intros H. destruct (List.filter P l) as [| y r] eqn:Hf; [done |].
    assert (Hin : In y (List.filter P l)) by (rewrite Hf; by left).
    apply filter_In in Hin as [Hy HP]. rewrite (H y Hy) in HP. discriminate.
Qed.

Lemma has_id_spec st z l : has_id st (Num z) l = true <-> id_of st l = Some (Num z).
Proof.
  unfold has_id. destruct (id_of st l) as [[z' |] |]; simpl.
  - rewrite Z.eqb_eq. split; congruence.
  - split; discriminate.
  - split; discriminate.
Qed.

(** X7. [getById(id)] answers with a question that [getAll()] lists and
    that carries exactly this id, and it answers null only when no listed
    question carries the id. *)
Theorem getById_spec h z st :
  literal_pattern (namespace h) = true ->
  (forall l, getById h (Num z) st = Some l ->
             In l (getAll h st) /\ id_of st l = Some (Num z)) /\
  (getById h (Num z) st = None <->
   forall l, In l (getAll h st) -> id_of st l <> Some (Num z)).
Proof.
  intros _. unfold getById. split.
  - intros l H. apply head_filter_Some in H as [Hin Hid].
    split; [done |]. by apply has_id_spec.
  - rewrite head_filter_None. split; intros H l Hl.
    + intros Hid. apply has_id_spec in Hid. rewrite (H l Hl) in Hid. discriminate.
    + destruct (has_id st (Num z) l) eqn:Hid; [| done].
      apply has_id_spec in Hid. by destruct (H l Hl).
Qed.

(** X8. No question is ever found under the id NaN, whatever is stored:
    the questions added after a [destroy()] cannot be looked up by id. *)
Theorem getById_NaN h st :
  literal_pattern (namespace h) = true -> getById h NaN st = None.
Proof.
  intros _. unfold getById. apply head_filter_None. intros l _.
  unfold has_id. by destruct (id_of st l) as [[z |] |].
Qed.

End RegistryMore.

(** ** Identifiers, once more *)

Section IdsMore.

Import Registry Observe Outcome.

Lemma increasing_from_weaken ids : forall s s',
  s <= s' -> increasing_from s' ids -> increasing_from s ids.
Proof.
  destruct ids as [| [[z |] |] rest]; simpl; intros s s' Hle H; try done.
  destruct H as [Hlt Hrest]. split; [lia | done].
Qed.

Lemma add_ids_increasing calls : forall h st s,
  ctr h = VNumber (Num s) -> increasing_from s (add_ids h calls st).
Proof.
  induction calls as [| [n p] rest IH]; intros h st s Hctr; [done |].
  cbn [add_ids fst snd]. unfold add. rewrite Hctr.
  destruct (name_truthy n) eqn:Hn; cbn [negb].
  - cbn [to_number succ].
    destruct (match n with name_object l => Some l | _ => p end) as [l |] eqn:Hs.
    + destruct (heap st !! l) as [o |] eqn:Ho.
      * assert (Hsub : subject (n, p) = Some l) by exact Hs.
        rewrite Hsub. unfold id_of. cbn [heap set_prompts set_heap].
        rewrite lookup_insert_eq. cbn. split; [lia |]. by apply IH.
      * apply increasing_from_weaken with (s' := s + 1); [lia |]. by apply IH.
    + apply increasing_from_weaken with (s' := s + 1); [lia |]. by apply IH.
  - cbn [app]. by apply IH.
Qed.

(** X9. Through a handle whose counter holds a number [s], the ids read
    back from the stored questions are numbers in strictly increasing
    order, all above [s]: no id is handed out twice, also when calls in
    between are refused for want of a name or throw for want of an
    object. *)
Theorem add_ids_never_reused h st calls s :
  ctr h = VNumber (Num s) ->
  increasing_from s (add_ids h calls st).
Proof. intros Hctr. by apply add_ids_increasing. Qed.

(** *** [lastId] on small registries *)

Lemma In_sort_insert x l y : In y (sort_insert x l) <-> y = x \/ In y l.
Proof.
  induction l as [| z l IH]; simpl.
  - split; [intros [<- | []]; by left | intros [-> | []]; by left].
  - destruct (sort_le x z); simpl.
    + split; [intros [<- | H]; [by left | by right] | intros [-> | H]; [by left | by right]].
    + rewrite IH. split; [intros [<- | [-> | H]] | intros [-> | [<- | H]]]; auto.
Qed.

Lemma In_sort l y : In y (sort l) <-> In y l.
Proof.
  induction l as [| x l IH]; simpl; [done |].
  rewrite In_sort_insert, IH. split; [intros [-> | H] | intros [<- | H]]; auto.
Qed.

Lemma sort_insert_not_nil x l : sort_insert x l <> [].
Proof. destruct l; simpl; [done |]. by destruct (sort_le _ _). Qed.

Lemma last_cons_not_nil {A} (x : A) l : l <> [] -> last (x :: l) = last l.
Proof. by destruct l. Qed.

Lemma last_sort_insert x l :
  last (sort_insert x l)
    = if forallb (fun y => negb (sort_le x y)) l then Some x else last l.
Proof.
  induction l as [| y r IH]; [done |].
  cbn [sort_insert forallb]. destruct (sort_le x y); cbn [negb andb]; [done |].
  rewrite last_cons_not_nil by apply sort_insert_not_nil. rewrite IH.
  destruct (forallb _ r) eqn:Hf; [done |].
  destruct r; [discriminate | done].
Qed.

Lemma sort_le_digits x y :
  0 <= x <= 9 -> 0 <= y <= 9 ->
  sort_le (Some (Num x)) (Some (Num y)) = (x <=? y).
Proof.
  intros Hx Hy.
  assert (Ex : x = 0 \/ x = 1 \/ x = 2 \/ x = 3 \/ x = 4 \/ x = 5 \/ x = 6
               \/ x = 7 \/ x = 8 \/ x = 9) by lia.
  assert (Ey : y = 0 \/ y = 1 \/ y = 2 \/ y = 3 \/ y = 4 \/ y = 5 \/ y = 6
               \/ y = 7 \/ y = 8 \/ y = 9) by lia.
  clear Hx Hy.
  repeat (destruct Ex as [-> | Ex]); try subst x;
    repeat (destruct Ey as [-> | Ey]); try subst y; reflexivity.
Qed.

Lemma last_sort_digits l :
  Forall digit l -> l <> [] ->
  exists m, last (sort l) = Some (Some (Num m)) /\
            In (Some (Num m)) l /\
            forall z, In (Some (Num z)) l -> z <= m.
Proof.
  induction l as [| x r IH]; [done |]. intros Hall _.
  apply Forall_cons in Hall as [(zx & -> & Hzx) Hr].
  cbn [sort fold_right]. fold (sort r). rewrite last_sort_insert.
  destruct r as [| y r'].
  - exists zx. simpl. split; [done |]. split; [by left |].
    intros z [[= ->] | []]. lia.
  - destruct (IH Hr) as (m & Hlast & Hin & Hmax); [done |].
    assert (Hm : 0 <= m <= 9).
    { rewrite Forall_forall in Hr. apply list_elem_of_In, Hr in Hin.
      destruct Hin as (z & [= <-] & Hz). done. }
    destruct (forallb _ (sort (y :: r'))) eqn:Hf.
    + exists zx. split; [done |]. split; [by left |].
      intros z [[= ->] | Hz]; [lia |].
      rewrite forallb_forall in Hf.
      pose proof (proj2 (In_sort (y :: r') _) Hin) as Hin'.
      specialize (Hf _ Hin'). rewrite sort_le_digits in Hf by done.
      specialize (Hmax z Hz). apply negb_true_iff, Z.leb_gt in Hf. lia.
    + exists m. split; [done |]. split; [by right |].
      intros z [[= ->] | Hz]; [| by apply Hmax].
      destruct (Z.le_gt_cases z m) as [| Hgt]; [done |].
      assert (Hall : forallb (fun y0 => negb (sort_le (Some (Num z)) y0))
                       (sort (y :: r')) = true).
      { apply forallb_forall. intros i Hi. apply (proj1 (In_sort _ _)) in Hi.
        rewrite Forall_forall in Hr. pose proof Hi as Hi'.
        apply list_elem_of_In, Hr in Hi' as (zi & -> & Hzi).
        rewrite sort_le_digits by done.
        specialize (Hmax zi Hi). apply negb_true_iff, Z.leb_gt. lia. }
      congruence.
Qed.

Lemma lastId_single_digits_holds h st :
  Forall digit (listed_ids h st) -> listed_ids h st <> [] ->
  exists m, lastId h st = VNumber (Num m) /\
            In (Some (Num m)) (listed_ids h st) /\
            forall z, In (Some (Num z)) (listed_ids h st) -> z <= m.
Proof.
  intros Hall Hne. destruct (last_sort_digits _ Hall Hne) as (m & Hlast & Hin & Hmax).
  exists m. split; [| done].
  unfold lastId, pop. fold (listed_ids h st). by rewrite Hlast.
Qed.

(** X10. While every question listed for the namespace carries an id
    between 0 and 9, [lastId()] is the largest of these ids. *)
Theorem lastId_single_digits h st :
  literal_pattern (namespace h) = true ->
  Forall digit (listed_ids h st) -> listed_ids h st <> [] ->
  exists m, lastId h st = VNumber (Num m) /\
            In (Some (Num m)) (listed_ids h st) /\
            forall z, In (Some (Num z)) (listed_ids h st) -> z <= m.
Proof. intros _. apply lastId_single_digits_holds. Qed.

End IdsMore.

(** ** Filling and clearing a registry *)

Section FillFacts.

Import Registry Observe Outcome.

Lemma map_set_absent k v (m : list (string * loc)) :
  map_get k m = None -> map_set k v m = m ++ [(k, v)].
Proof.
  induction m as [| [k' v'] m IH]; simpl; [done |].
  destruct (String.eqb_spec k k'); [done |]. intros H. by rewrite IH.
Qed.

Lemma map_get_app_None k (m m' : list (string * loc)) :
  map_get k m = None -> map_get k (m ++ m') = map_get k m'.
Proof.
  induction m as [| [k' v'] m IH]; simpl; [done |].
  destruct (String.eqb_spec k k'); [done | exact IH].
Qed.

Lemma toNamespace_inj_name ns s s' :
  toNamespace ns (name_string s) = toNamespace ns (name_string s') -> s = s'.
Proof.
  unfold toNamespace. simpl. intros H.
  apply (inj (String.append ns)) in H. by apply (inj (String.append ":")) in H.
Qed.

Lemma add_string h s l st o :
  s <> "" -> heap st !! l = Some o ->
  add h (name_string s) (Some l) st
    = Normal ({| namespace := namespace h;
                 ctr := VNumber (succ (to_number (ctr h))) |},
              set_prompts (map_set (toNamespace (namespace h) (name_string s)) l (_prompts st))
                (set_heap (<[l := {| p_id := Some (succ (to_number (ctr h)));
                                     p_name := name_string s;
                                     p_type := Some (type_or_string o);
                                     p_message := p_message o;
                                     p_validate := p_validate o |}]> (heap st)) st)).
Proof.
  intros Hs Ho. unfold add. simpl.
  destruct (String.eqb_spec s ""); [done |]. simpl. rewrite Ho.
  unfold type_or_string.
  destruct (p_type o) as [t |]; [destruct (String.eqb t "") |]; reflexivity.
Qed.

Lemma usable_heap st st' e :
  (forall l, is_Some (heap st' !! l) <-> is_Some (heap st !! l)) ->
  usable st e -> usable st' e.
Proof. intros Hdom [Hn Hl]. split; [done |]. by apply Hdom. Qed.

Lemma is_Some_insert_same (hp : gmap loc IPrompt) l o o' l' :
  hp !! l = Some o -> is_Some (<[l := o']> hp !! l') <-> is_Some (hp !! l').
Proof.
  intros Ho. destruct (decide (l = l')) as [<- | Hne].
  - rewrite lookup_insert_eq, Ho. split; eauto.
  - by rewrite lookup_insert_ne.
Qed.

(** The store after a run of calls with new, distinct names. *)
Lemma run_adds_fill entries : forall h st,
  NoDup (map fst entries) -> Forall (usable st) entries ->
  (forall e, In e entries ->
     map_get (toNamespace (namespace h) (name_string (fst e))) (_prompts st) = None) ->
  _prompts (snd (run_adds h (calls_of entries) st))
    = _prompts st ++ store_of (namespace h) entries /\
  namespace (fst (run_adds h (calls_of entries) st)) = namespace h /\
  (forall l, is_Some (heap (snd (run_adds h (calls_of entries) st)) !! l)
             <-> is_Some (heap st !! l)).
Proof.
  induction entries as [| [s l] rest IH]; intros h st Hnd Hall Hfresh.
  - simpl. by rewrite app_nil_r.
  - apply NoDup_cons in Hnd as [Hs Hnd].
    apply Forall_cons in Hall as [[Hne [o Ho]] Hall]. simpl in Hne, Ho.
    cbn [calls_of map run_adds fst snd].
    rewrite (add_string h s l st o Hne Ho).
    set (h' := {| namespace := namespace h; ctr := _ |}).
    set (st' := set_prompts _ _).
    assert (Hdom : forall l', is_Some (heap st' !! l') <-> is_Some (heap st !! l')).
    { intros l'. subst st'. simpl. by eapply is_Some_insert_same. }
    assert (Hkey : map_get (toNamespace (namespace h) (name_string s)) (_prompts st) = None).
    { apply (Hfresh (s, l)). by left. }
    destruct (IH h' st') as (Hp & Hns & Hd).
    + done.
    + eapply Forall_impl; [exact Hall |]. intros e. by apply usable_heap.
    + intros e He. subst st' h'. simpl. rewrite (map_set_absent _ _ _ Hkey).
      rewrite map_get_app_None by (apply Hfresh; by right). simpl.
      destruct (String.eqb_spec (toNamespace (namespace h) (name_string (fst e)))
                  (toNamespace (namespace h) (name_string s))) as [Heq | _]; [| done].
      apply toNamespace_inj_name in Heq. destruct Hs.
      apply list_elem_of_In, in_map_iff. exists e. split; [done | by apply He].
    + fold (calls_of rest). split; [| split].
      * rewrite Hp. subst st' h'. simpl.
        by rewrite (map_set_absent _ _ _ Hkey), <- app_assoc.
      * by rewrite Hns.
      * intros l'. etrans; [apply Hd | apply Hdom].
Qed.

(** An object that no later call works on keeps its fields. *)
Lemma run_adds_other calls : forall h st l,
  Forall (fun c => subject c <> Some l) calls ->
  heap (snd (run_adds h calls st)) !! l = heap st !! l.
Proof.
  induction calls as [| [n p] rest IH]; intros h st l Hall; [done |].
  apply Forall_cons in Hall as [Hc Hall].
  destruct (add_frame_holds h n p st "" l) as (_ & Hheap & _).
  specialize (Hheap Hc). cbn [run_adds fst snd].
  unfold after in Hheap.
  destruct (add h n p st) as [[h' st'] | e [h' st']]; simpl in Hheap;
    rewrite IH by done; exact Hheap.
Qed.

(** The ids and names that the objects carry after such a run, when no
    object is added twice. *)
Lemma run_adds_fill_heap entries : forall h st s0 i e,
  ctr h = VNumber (Num s0) ->
  NoDup (map snd entries) -> Forall (usable st) entries ->
  entries !! i = Some e ->
  exists o, heap (snd (run_adds h (calls_of entries) st)) !! snd e = Some o /\
            p_id o = Some (Num (s0 + 1 + Z.of_nat i)) /\
            p_name o = name_string (fst e).
Proof.
  induction entries as [| [s l] rest IH]; intros h st s0 i e Hctr Hnd Hall Hi;
    [done |].
  apply NoDup_cons in Hnd as [Hl Hnd].
  apply Forall_cons in Hall as [[Hne [o Ho]] Hall]. simpl in Hne, Ho.
  cbn [calls_of map run_adds fst snd].
  rewrite (add_string h s l st o Hne Ho). rewrite Hctr. cbn [to_number succ].
  set (h' := {| namespace := namespace h; ctr := _ |}).
  set (st' := set_prompts _ _).
  assert (Hall' : Forall (usable st') rest).
  { eapply Forall_impl; [exact Hall |]. intros e0. apply usable_heap.
    intros l'. subst st'. simpl. by eapply is_Some_insert_same. }
  destruct i as [| i]; simpl in Hi.
  - injection Hi as <-. simpl. fold (calls_of rest).
    rewrite run_adds_other.
    + subst st'. simpl. rewrite lookup_insert_eq. eexists. split; [done |].
      simpl. split; [do 2 f_equal; lia | done].
    + apply Forall_forall. intros c Hc. apply list_elem_of_In, in_map_iff in Hc.
      destruct Hc as ([s1 l1] & <- & He). unfold subject. simpl.
      intros [= ->]. apply Hl, list_elem_of_In, in_map_iff.
      by exists (s1, l).
  - fold (calls_of rest).
    destruct (IH h' st' (s0 + 1) i e) as (o' & Ho' & Hid & Hname); try done.
    exists o'. split; [done |]. split; [| done].
    rewrite Hid. do 2 f_equal. lia.
Qed.

Lemma omap_get_keys (m : list (string * loc)) :
  NoDup (map fst m) -> omap (fun k => map_get k m) (map fst m) = map snd m.
Proof.
  induction m as [| [k v] m IH]; [done |]. intros Hnd.
  apply NoDup_cons in Hnd as [Hk Hnd]. simpl. rewrite String.eqb_refl. f_equal.
  rewrite <- IH by done. apply list_omap_ext.
  apply Forall2_same_length_lookup_2; [done |].
  intros i x y Hx Hy. assert (x = y) as <- by congruence.
  destruct (String.eqb_spec x k) as [-> | _]; [| done].
  destruct Hk. by eapply list_elem_of_lookup_2.
Qed.

Lemma filter_all {A} (P : A -> bool) (l : list A) :
  (forall x, In x l -> P x = true) -> List.filter P l = l.
Proof.
  induction l as [| x l IH]; [done |]. intros H. simpl.
  rewrite (H x) by (by left). f_equal. apply IH. intros y Hy. apply H. by right.
Qed.

Lemma filter_none {A} (P : A -> bool) (l : list A) :
  (forall x, In x l -> P x = false) -> List.filter P l = [].
Proof.
  induction l as [| x l IH]; [done |]. intros H. simpl.
  rewrite (H x) by (by left). apply IH. intros y Hy. apply H. by right.
Qed.

Lemma keys_store_of ns entries :
  NoDup (map fst entries) -> NoDup (map fst (store_of ns entries)).
Proof.
  induction entries as [| [s l] rest IH]; simpl; [constructor |].
  intros Hnd. apply NoDup_cons in Hnd as [Hs Hnd]. apply NoDup_cons.
  split; [| by apply IH].
  intros Hin. apply Hs. apply list_elem_of_In, in_map_iff in Hin.
  destruct Hin as ([k l'] & Hk & Hin). simpl in Hk.
  apply in_map_iff in Hin as ([s' l''] & [= <- <-] & Hin).
  apply toNamespace_inj_name in Hk. subst s'.
  apply list_elem_of_In, in_map_iff. by exists (s, l'').
Qed.

Lemma getAll_store_of h st entries :
  _prompts st = store_of (namespace h) entries -> NoDup (map fst entries) ->
  getAll h st = map snd entries.
Proof.
  intros Hp Hnd. unfold getAll. rewrite Hp.
  rewrite filter_all.
  - rewrite omap_get_keys by (by apply keys_store_of).
    unfold store_of. rewrite map_map. done.
  - intros k Hk. unfold store_of in Hk. rewrite map_map in Hk.
    apply in_map_iff in Hk as (e & <- & _). simpl.
    unfold toNamespace. apply test_prefix_i_app.
Qed.

Lemma getAll_insertion_order_holds ns st entries :
  literal_pattern ns = true -> _prompts st = [] ->
  NoDup (map fst entries) -> Forall (usable st) entries ->
  getAll (fst (run_adds (acquire ns st) (calls_of entries) st))
         (snd (run_adds (acquire ns st) (calls_of entries) st))
    = map snd entries /\
  (NoDup (map snd entries) ->
   listed_ids (fst (run_adds (acquire ns st) (calls_of entries) st))
              (snd (run_adds (acquire ns st) (calls_of entries) st))
     = map (fun i => Some (Num (Z.of_nat i))) (seq 0 (length entries))).
Proof.
  intros _ Hempty Hnd Hall.
  destruct (run_adds_fill entries (acquire ns st) st Hnd Hall) as (Hp & Hns & Hd).
  { intros e _. by rewrite Hempty. }
  rewrite Hempty in Hp. simpl in Hp.
  assert (Hget : getAll (fst (run_adds (acquire ns st) (calls_of entries) st))
                        (snd (run_adds (acquire ns st) (calls_of entries) st))
                 = map snd entries).
  { apply getAll_store_of; [| done]. by rewrite Hns. }
  split; [done |]. intros Hobj. unfold listed_ids. rewrite Hget.
  assert (Hseed : ctr (acquire ns st) = VNumber (Num (-1))).
  { rewrite acquire_ctr, seed_empty; [done |]. unfold getAll. by rewrite Hempty. }
  apply list_eq_same_length with (n := length entries).
  - by rewrite length_map, length_seq.
  - by rewrite !length_map.
  - intros i x y Hi Hx Hy.
    rewrite !list_lookup_fmap in Hx. rewrite list_lookup_fmap in Hy.
    destruct (entries !! i) as [e |] eqn:He; [| done]. simpl in Hx.
    rewrite lookup_seq_lt in Hy by done. simpl in Hy. simplify_eq.
    destruct (run_adds_fill_heap entries _ st (-1) i e Hseed Hobj Hall He)
      as (o & Ho & Hid & _).
    unfold id_of. rewrite Ho. simpl. rewrite Hid. do 2 f_equal; lia.
Qed.

(** X11. For a namespace free of regular-expression metacharacters, on an
    instance whose store is empty, questions added through one handle under
    distinct, non-empty names are listed by [getAll()] in the order of the
    calls; when no object is added twice, the listed ids are 0, 1, 2, ...
    in that order. *)
Theorem getAll_insertion_order ns st entries :
  literal_pattern ns = true -> _prompts st = [] ->
  NoDup (map fst entries) -> Forall (usable st) entries ->
  getAll (fst (run_adds (acquire ns st) (calls_of entries) st))
         (snd (run_adds (acquire ns st) (calls_of entries) st))
    = map snd entries /\
  (NoDup (map snd entries) ->
   listed_ids (fst (run_adds (acquire ns st) (calls_of entries) st))
              (snd (run_adds (acquire ns st) (calls_of entries) st))
     = map (fun i => Some (Num (Z.of_nat i))) (seq 0 (length entries))).
Proof. apply getAll_insertion_order_holds. Qed.

End FillFacts.

Section DestroyFacts.

Import Registry Observe Outcome.

Lemma prompts_remove_name h n st :
  _prompts (remove_name h n st)
    = map_delete (toNamespace (namespace h) n) (_prompts st).
Proof.
  unfold remove_name. simpl. destruct n; simpl; try done.
  unfold log. by rewrite prompts_logger.
Qed.

Lemma prompts_fold_remove h names : forall st,
  _prompts (fold_left (fun s n => remove_name h n s) names st)
    = fold_left (fun m n => map_delete (toNamespace (namespace h) n) m) names (_prompts st).
Proof.
  induction names as [| n names IH]; intros st; [done |].
  simpl. by rewrite IH, prompts_remove_name.
Qed.

Lemma prompts_destroy h st :
  _prompts (snd (destroy h st))
    = fold_left (fun m n => map_delete (toNamespace (namespace h) n) m)
        (destroyed_names h st) (_prompts st).
Proof. unfold destroy. simpl. by rewrite prompts_fold_remove. Qed.

Lemma map_get_delete k k' (m : list (string * loc)) :
  map_get k' (map_delete k m) = if String.eqb k k' then None else map_get k' m.
Proof.
  destruct (String.eqb_spec k k') as [-> | Hne].
  - apply map_get_delete_eq.
  - by apply map_get_delete_ne.
Qed.

Lemma map_get_fold_delete (key : pname -> string) names k : forall m,
  map_get k (fold_left (fun m n => map_delete (key n) m) names m)
    = if existsb (fun n => String.eqb (key n) k) names then None else map_get k m.
Proof.
  induction names as [| n names IH]; intros m; [done |].
  simpl. rewrite IH, map_get_delete.
  destruct (String.eqb (key n) k); simpl; [by destruct (existsb _ names) | done].
Qed.

(** X12. [destroy()] deletes nothing but keys of its own namespace: a key
    that is not the namespaced form of some name keeps its object, and no
    object is changed. *)
Theorem destroy_spares_other_keys h st k :
  literal_pattern (namespace h) = true ->
  Forall alphabetic (destroyed_names h st) ->
  (forall n, k <> toNamespace (namespace h) n) ->
  map_get k (_prompts (snd (destroy h st))) = map_get k (_prompts st) /\
  heap (snd (destroy h st)) = heap st.
Proof.
  intros _ _ Hk. split; [| apply heap_destroy].
  rewrite prompts_destroy, map_get_fold_delete.
  destruct (existsb _ _) eqn:Hex; [| done].
  apply existsb_exists in Hex as (n & _ & Hn).
  apply String.eqb_eq in Hn. by destruct (Hk n).
Qed.

Lemma destroy_removes_own h st k :
  own_keys h st -> test_prefix_i (namespace h) k = true ->
  map_get k (_prompts (snd (destroy h st))) = None.
Proof.
  intros Hown Ht. rewrite prompts_destroy, map_get_fold_delete.
  destruct (existsb _ _) eqn:Hex; [done |].
  destruct (map_get k (_prompts st)) as [l |] eqn:Hget; [| done].
  assert (Hin : In k (map fst (_prompts st))).
  { apply map_get_In. by rewrite Hget. }
  destruct (Hown k Hin Ht) as (l' & o & Hget' & Ho & Hk).
  assert (l' = l) as -> by congruence.
  assert (Hex' : existsb (fun n => String.eqb (toNamespace (namespace h) n) k)
                   (destroyed_names h st) = true).
  { apply existsb_exists. exists (p_name o). split.
    - unfold destroyed_names. apply in_map_iff. exists l. rewrite Ho.
      split; [done |]. unfold getAll. by apply elem_of_omap_get with (k := k).
    - rewrite <- Hk. apply String.eqb_refl. }
  congruence.
Qed.

(** X13. When every stored key that the namespace pattern matches is the
    key of the name its object carries, [destroy()] leaves [getAll()]
    empty, and the counter undefined. *)
Theorem destroy_clears h st :
  literal_pattern (namespace h) = true ->
  Forall alphabetic (destroyed_names h st) ->
  own_keys h st ->
  getAll (fst (destroy h st)) (snd (destroy h st)) = [] /\
  ctr (fst (destroy h st)) = VUndefined.
Proof.
  intros _ _ Hown. split; [| done]. unfold getAll.
  change (namespace (fst (destroy h st))) with (namespace h).
  rewrite filter_none; [done |].
  intros k Hk. destruct (test_prefix_i (namespace h) k) eqn:Ht; [| done].
  apply map_get_In in Hk as [l Hl].
  rewrite (destroy_removes_own h st k Hown Ht) in Hl. discriminate.
Qed.

Lemma map_get_store_of ns entries i e :
  NoDup (map fst entries) -> entries !! i = Some e ->
  map_get (toNamespace ns (name_string (fst e))) (store_of ns entries) = Some (snd e).
Proof.
  revert i. induction entries as [| [s l] rest IH]; intros i Hnd Hi; [done |].
  apply NoDup_cons in Hnd as [Hs Hnd]. simpl.
  destruct i as [| i]; simpl in Hi.
  - injection Hi as <-. simpl. by rewrite String.eqb_refl.
  - destruct (String.eqb_spec (toNamespace ns (name_string (fst e)))
                (toNamespace ns (name_string s))) as [Heq | _].
    + apply toNamespace_inj_name in Heq. destruct Hs.
      apply list_elem_of_In, in_map_iff. exists e. split; [done |].
      by eapply list_elem_of_In, list_elem_of_lookup_2.
    + by apply IH with (i := i).
Qed.

Lemma getAll_namespace h h' st :
  namespace h = namespace h' -> getAll h st = getAll h' st.
Proof. intros Hns. unfold getAll. by rewrite Hns. Qed.

(** After a plain fill of an empty store, every key is the key of the name
    its object carries. *)
Lemma own_keys_fill ns st entries :
  _prompts st = [] -> NoDup (map fst entries) -> NoDup (map snd entries) ->
  Forall (usable st) entries ->
  own_keys (fst (run_adds (acquire ns st) (calls_of entries) st))
           (snd (run_adds (acquire ns st) (calls_of entries) st)).
Proof.
  intros Hempty Hnd Hobj Hall.
  destruct (run_adds_fill entries (acquire ns st) st Hnd Hall) as (Hp & Hns & _).
  { intros e _. by rewrite Hempty. }
  rewrite Hempty in Hp. simpl in Hp.
  intros k Hk _. rewrite Hp in Hk |- *. rewrite Hns.
  change (namespace (acquire ns st)) with ns in *.
  unfold store_of in Hk. rewrite map_map in Hk.
  apply in_map_iff in Hk as (e & <- & He). simpl.
  apply list_elem_of_In, list_elem_of_lookup_1 in He as [i Hi].
  assert (Hctr : ctr (acquire ns st) = VNumber (Num (-1))).
  { rewrite acquire_ctr, seed_empty; [done |]. unfold getAll. by rewrite Hempty. }
  destruct (run_adds_fill_heap entries (acquire ns st) st _ i e
              Hctr Hobj Hall Hi) as (o & Ho & _ & Hname).
  exists (snd e), o. split; [by eapply map_get_store_of |].
  split; [done |]. by rewrite Hname.
Qed.

(** X14. For a namespace free of regular-expression metacharacters: fill
    an empty store through one handle, under distinct names that begin with
    a letter and with distinct objects, then [destroy()]: the store is
    empty again. *)
Theorem fill_then_destroy ns st entries :
  literal_pattern ns = true -> _prompts st = [] ->
  NoDup (map fst entries) -> NoDup (map snd entries) ->
  Forall (usable st) entries ->
  Forall (fun e => alphabetic (name_string (fst e))) entries ->
  _prompts (snd (destroy (fst (run_adds (acquire ns st) (calls_of entries) st))
                         (snd (run_adds (acquire ns st) (calls_of entries) st))))
    = [].
Proof.
  intros _ Hempty Hnd Hobj Hall _.
  pose proof (own_keys_fill ns st entries Hempty Hnd Hobj Hall) as Hown.
  destruct (run_adds_fill entries (acquire ns st) st Hnd Hall) as (Hp & Hns & _).
  { intros e _. by rewrite Hempty. }
  rewrite Hempty in Hp. simpl in Hp.
  set (h1 := fst (run_adds (acquire ns st) (calls_of entries) st)) in *.
  set (st1 := snd (run_adds (acquire ns st) (calls_of entries) st)) in *.
  destruct (_prompts (snd (destroy h1 st1))) as [| [k v] m] eqn:Hd; [done |].
  assert (Hget : map_get k (_prompts (snd (destroy h1 st1))) = Some v).
  { rewrite Hd. simpl. by rewrite String.eqb_refl. }
  assert (Horig : is_Some (map_get k (_prompts st1))).
  { rewrite prompts_destroy, map_get_fold_delete in Hget.
    destruct (existsb _ _); [done |]. by rewrite Hget. }
  apply map_get_In in Horig. rewrite Hp in Horig.
  unfold store_of in Horig. rewrite map_map in Horig.
  apply in_map_iff in Horig as (e & <- & _). simpl in Hget.
  rewrite (destroy_removes_own h1 st1) in Hget; [done | done |].
  rewrite Hns. unfold toNamespace. apply test_prefix_i_app.
Qed.

(** X15. For a namespace free of regular-expression metacharacters, a
    handle acquired again on a registry that was filled from an empty
    store, under distinct non-empty names and with distinct objects, with
    at most ten questions is seeded with the last id, so its calls go on
    with the next one. *)
Theorem reacquire_continues ns st entries calls :
  literal_pattern ns = true -> _prompts st = [] ->
  NoDup (map fst entries) -> NoDup (map snd entries) ->
  Forall (usable st) entries -> (length entries <= 10)%nat ->
  Forall (has_object (snd (run_adds (acquire ns st) (calls_of entries) st))) calls ->
  seed ns (snd (run_adds (acquire ns st) (calls_of entries) st))
    = Num (Z.of_nat (length entries) - 1) /\
  add_ids (acquire ns (snd (run_adds (acquire ns st) (calls_of entries) st))) calls
          (snd (run_adds (acquire ns st) (calls_of entries) st))
    = ids_from (Z.of_nat (length entries) - 1) (length (named calls)).
Proof.
  intros Hlit Hempty Hnd Hobj Hall Hlen Hcalls.
  destruct (getAll_insertion_order_holds ns st entries Hlit Hempty Hnd Hall) as [Hget Hids].
  specialize (Hids Hobj).
  destruct (run_adds_fill entries (acquire ns st) st Hnd Hall) as (_ & Hns & _).
  { intros e _. by rewrite Hempty. }
  set (h1 := fst (run_adds (acquire ns st) (calls_of entries) st)) in *.
  set (st1 := snd (run_adds (acquire ns st) (calls_of entries) st)) in *.
  set (h0 := {| namespace := ns; ctr := VUndefined |}).
  assert (Hl : listed_ids h0 st1
               = map (fun i => Some (Num (Z.of_nat i))) (seq 0 (length entries))).
  { rewrite <- Hids. unfold listed_ids. f_equal. apply getAll_namespace.
    by rewrite Hns. }
  assert (Hseed : seed ns st1 = Num (Z.of_nat (length entries) - 1)).
  { destruct entries as [| e0 rest] eqn:He.
    - apply seed_empty. simpl in Hget. fold h0.
      rewrite (getAll_namespace h0 h1); [done | by rewrite Hns].
    - rewrite <- He in *. assert (Hpos : (0 < length entries)%nat) by (rewrite He; simpl; lia).
      destruct (lastId_single_digits_holds h0 st1) as (m & Hlast & Hin & Hmax).
      + rewrite Hl. apply Forall_forall. intros x Hx.
        apply list_elem_of_In, in_map_iff in Hx as (i & <- & Hi).
        apply in_seq in Hi. exists (Z.of_nat i). split; [done | lia].
      + rewrite Hl. destruct (length entries); [lia | done].
      + unfold seed. fold h0. rewrite Hlast.
        rewrite Hl in Hin, Hmax.
        apply in_map_iff in Hin as (i & [= <-] & Hi). apply in_seq in Hi.
        assert (Hm : Z.of_nat (length entries) - 1 <= Z.of_nat i).
        { apply Hmax. apply in_map_iff. exists (length entries - 1)%nat.
          split; [do 2 f_equal; lia |]. apply in_seq. lia. }
        cbv [Chek.toDefault Chek.isValue to_number]. f_equal. lia. }
  split; [done |].
  apply add_ids_from; [by rewrite acquire_ctr, Hseed | done].
Qed.

End DestroyFacts.

(** ** Initialisation, [prompt] and [listen] *)

Section SessionFacts.

Import Registry Observe Outcome Engine Listener.

Lemma count_events_emit f evs st :
  count_events f (emit evs st)
    = (count_events f st + length (List.filter f evs))%nat.
Proof. unfold count_events. simpl. by rewrite List.filter_app, length_app. Qed.

Lemma toggleExceptions_enabled st : _eventsEnabled (toggleExceptions st) = true.
Proof. unfold toggleExceptions. by destruct (_eventsEnabled st) eqn:H. Qed.

Lemma toggleExceptions_subscribes st :
  count_events is_subscribe (toggleExceptions st)
    = (count_events is_subscribe st + if _eventsEnabled st then 0 else 2)%nat.
Proof.
  unfold toggleExceptions. destruct (_eventsEnabled st).
  - by rewrite count_events_emit.
  - unfold count_events. simpl. by rewrite List.filter_app, length_app.
Qed.

(** X16. [toggleExceptions] never clears the flag it sets: once the process
    listeners are subscribed, any number of further calls only asks for
    their removal and subscribes nothing again. *)
Theorem toggleExceptions_never_rearms n st :
  _eventsEnabled st = true ->
  _eventsEnabled (Nat.iter n toggleExceptions st) = true /\
  count_events is_subscribe (Nat.iter n toggleExceptions st)
    = count_events is_subscribe st.
Proof.
  intros Hen. induction n as [| n [IH1 IH2]]; [done |].
  simpl. split; [apply toggleExceptions_enabled |].
  rewrite toggleExceptions_subscribes, IH1, IH2. lia.
Qed.

Lemma init_store isTTY st :
  _prompts (init isTTY st) = _prompts st /\ heap (init isTTY st) = heap st /\
  options (init isTTY st) = options st /\
  _initialized (init isTTY st) = _initialized st.
Proof.
  unfold init, toggleExceptions.
  destruct (_initialized st) eqn:Hi; [done |].
  destruct (_eventsEnabled st) eqn:He, isTTY; cbn; rewrite ?Hi, ?He; cbn; rewrite ?Hi; done.
Qed.

Lemma init_creates isTTY st :
  _initialized st = false ->
  count_events is_create (init isTTY st) = S (count_events is_create st) /\
  _eventsEnabled (init isTTY st) = true /\
  List.filter is_question (new_events st (init isTTY st)) = [].
Proof.
  intros Hi. unfold init, toggleExceptions, count_events, new_events. rewrite Hi.
  destruct (_eventsEnabled st) eqn:He, isTTY; cbn; rewrite ?He; cbn;
    rewrite <- ?app_assoc, ?List.filter_app, ?length_app, ?drop_app_length; cbn;
    (split; [lia | done]).
Qed.

Lemma getAll_store h st st' :
  _prompts st' = _prompts st -> getAll h st' = getAll h st.
Proof. intros Hp. unfold getAll. by rewrite Hp. Qed.

Lemma getById_store h id st st' :
  _prompts st' = _prompts st -> heap st' = heap st ->
  getById h id st' = getById h id st.
Proof.
  intros Hp Hh. unfold getById. rewrite (getAll_store h st st' Hp).
  f_equal. apply List.filter_ext. intros l. unfold has_id, id_of. by rewrite Hh.
Qed.

Lemma acquire_store ns st st' :
  _prompts st' = _prompts st -> heap st' = heap st ->
  acquire ns st' = acquire ns st.
Proof.
  intros Hp Hh. unfold acquire, lastId. rewrite (getAll_store _ st st' Hp).
  do 5 f_equal. apply map_ext. intros l. unfold id_of. by rewrite Hh.
Qed.

(** X17. [prompt] on a namespace that has no question with id 0 (an empty
    registry, or one refilled after [destroy()]) asks nothing and returns a
    rejected promise. *)
Theorem prompt_without_first_question isTTY ns st :
  literal_pattern ns = true ->
  getById (acquire ns st) (Num 0) st = None ->
  exists err st',
    prompt isTTY ns st
      = ({| collection := ns; responses := []; returned := Rejected err |}, None, st') /\
    List.filter is_question (new_events st st') = [].
Proof.
  intros _ Hnone. unfold prompt.
  set (st1 := if _initialized st then st else init isTTY st).
  assert (Hs : _prompts st1 = _prompts st /\ heap st1 = heap st).
  { subst st1. destruct (_initialized st); [done |].
    destruct (init_store isTTY st) as (? & ? & _). done. }
  destruct Hs as [Hp Hh].
  rewrite (acquire_store ns st st1 Hp Hh), (getById_store _ _ st st1 Hp Hh), Hnone.
  eexists _, _. split; [reflexivity |].
  subst st1. destruct (_initialized st) eqn:Hi.
  - unfold new_events. by rewrite drop_all.
  - by apply init_creates.
Qed.

(** X18. [prompt] initialises the instance but never marks it initialised:
    every call made before [listen] creates one more readline interface. *)
Theorem prompt_initialises_again isTTY ns st :
  literal_pattern ns = true ->
  _initialized st = false ->
  _initialized (snd (prompt isTTY ns st)) = false /\
  _eventsEnabled (snd (prompt isTTY ns st)) = true /\
  count_events is_create (snd (prompt isTTY ns st))
    = S (count_events is_create st).
Proof.
  intros _ Hi. unfold prompt. rewrite Hi.
  destruct (init_store isTTY st) as (_ & _ & _ & Hinit).
  destruct (init_creates isTTY st Hi) as (Hc & He & _).
  destruct (getById _ _ _) as [l |]; [destruct (heap _ !! l) |]; simpl;
    rewrite ?count_events_emit; simpl; rewrite ?Hinit, ?He, ?Hc; auto with lia.
Qed.

(** X19. As soon as one of the three handlers is there, [listen] returns
    with the instance marked initialised and its store and options as they
    were; a second [listen] creates no interface: it only redraws the
    delimiter and registers the three listeners once more. *)
Theorem listen_twice noop isTTY handler st :
  truthy (Listeners.chosen noop handler st) = true ->
  exists st1 st2,
    listen noop isTTY handler st = Normal st1 /\
    _initialized st1 = true /\
    _prompts st1 = _prompts st /\ heap st1 = heap st /\ options st1 = options st /\
    listen noop isTTY handler st1 = Normal st2 /\
    new_events st1 st2
      = delim_events st ++ [RlOn "line"; RlOn "SIGINT"; RlOn "close"].
Proof.
  intros Ht. unfold Listeners.chosen in Ht.
  assert (H1 : exists st1, listen noop isTTY handler st = Normal st1 /\
             _initialized st1 = true /\ _prompts st1 = _prompts st /\
             heap st1 = heap st /\ options st1 = options st).
  { unfold listen. rewrite Ht. simpl. eexists. split; [reflexivity |].
    destruct (_initialized st); [done |].
    destruct (init_store isTTY st) as (? & ? & ? & _). done. }
  destruct H1 as (st1 & Hl & Hi & Hp & Hh & Ho).
  exists st1. eexists. repeat (split; [done |]).
  unfold listen. unfold option_of. rewrite Ho. fold (option_of st "onInput").
  rewrite Ht, Hi. simpl. split; [reflexivity |].
  unfold new_events, setDelim, delim_events, option_of. simpl.
  rewrite Ho, <- app_assoc, drop_app_length. done.
Qed.

End SessionFacts.

Section AskFacts.

Import Registry Observe Outcome Engine.

Lemma init_trace isTTY st :
  exists evs, trace (init isTTY st) = trace st ++ evs /\
              List.filter is_question evs = [].
Proof.
  unfold init, toggleExceptions. destruct (_initialized st).
  - exists []. by rewrite app_nil_r.
  - destruct (_eventsEnabled st) eqn:He, isTTY; cbn; rewrite ?He; cbn;
      rewrite <- ?app_assoc; eexists; (split; [reflexivity | done]).
Qed.

Lemma prompt_asks_added_holds isTTY ns st s l o :
  literal_pattern ns = true -> _prompts st = [] -> s <> "" ->
  heap st !! l = Some o ->
  exists st2,
    prompt isTTY ns (after (add (acquire ns st) (name_string s) (Some l) st))
      = ({| collection := ns; responses := []; returned := Pending |}, Some l, st2) /\
    List.filter is_question (trace st2)
      = List.filter is_question (trace st) ++ [RlQuestion (p_message o)] /\
    exists q, heap st2 !! l = Some q /\ p_validate q = p_validate o.
Proof.
  intros _ Hempty Hs Ho. rewrite (add_string _ s l st o Hs Ho). unfold after.
  assert (Hctr : ctr (acquire ns st) = VNumber (Num (-1))).
  { rewrite acquire_ctr, seed_empty; [done |]. unfold getAll. by rewrite Hempty. }
  rewrite Hctr, Hempty. cbn [to_number succ map_set Z.add Z.opp Z.pos_sub].
  set (st1 := set_prompts _ _).
  unfold prompt.
  set (stI := if _initialized st1 then st1 else init isTTY st1).
  assert (Hstore : _prompts stI = _prompts st1 /\ heap stI = heap st1).
  { subst stI. destruct (_initialized st1); [done |].
    destruct (init_store isTTY st1) as (? & ? & _). done. }
  destruct Hstore as [Hp Hh].
  assert (Htrace : exists evs, trace stI = trace st ++ evs /\
                               List.filter is_question evs = []).
  { subst stI. destruct (_initialized st1).
    - exists []. by rewrite app_nil_r.
    - apply (init_trace isTTY st1). }
  destruct Htrace as (evs & Ht & Hq).
  rewrite (acquire_store ns st1 stI Hp Hh), (getById_store _ _ st1 stI Hp Hh).
  assert (Hall : getAll (acquire ns st1) st1 = [l]).
  { apply (getAll_store_of _ st1 [(s, l)]); [done |].
    apply NoDup_cons. split; [by intros ?%elem_of_nil | constructor]. }
  unfold getById. rewrite Hall. unfold has_id, id_of.
  cbn [List.filter]. subst st1. cbn [heap set_prompts set_heap].
  rewrite lookup_insert_eq. cbn [mbind option_bind p_id strict_eq Z.eqb head].
  change (-1 + 1 =? 0) with true. cbn [head].
  rewrite Hh. cbn [heap set_prompts set_heap]. rewrite lookup_insert_eq.
  eexists. split; [reflexivity |]. cbn [trace emit p_message]. split.
  - rewrite Ht, !List.filter_app, Hq, app_nil_r. done.
  - cbn [heap emit]. rewrite Hh. cbn [heap set_prompts set_heap].
    rewrite lookup_insert_eq. by eexists.
Qed.

(** X20. For a namespace free of regular-expression metacharacters, on an
    instance with an empty store, a question added through a fresh handle
    under a non-empty name is the one that [prompt] asks: its message goes
    to the readline interface, once, and the returned promise is
    pending. *)
Theorem prompt_asks_added isTTY ns st s l o :
  literal_pattern ns = true -> _prompts st = [] -> s <> "" ->
  heap st !! l = Some o ->
  exists st2,
    prompt isTTY ns (after (add (acquire ns st) (name_string s) (Some l) st))
      = ({| collection := ns; responses := []; returned := Pending |}, Some l, st2) /\
    List.filter is_question (trace st2)
      = List.filter is_question (trace st) ++ [RlQuestion (p_message o)] /\
    exists q, heap st2 !! l = Some q /\ p_validate q = p_validate o.
Proof. apply prompt_asks_added_holds. Qed.

(** X21. For a question whose [validate] is a function, or that has none,
    the engine cannot take an answer: the question is asked, and handling
    any answer throws a TypeError, with nothing logged and no response
    recorded. *)
Theorem answer_always_throws isTTY ns st s l o ans :
  literal_pattern ns = true -> _prompts st = [] -> s <> "" ->
  heap st !! l = Some o ->
  (p_validate o = None \/ exists arity, p_validate o = Some (HFunction arity)) ->
  exists sess st2,
    prompt isTTY ns (after (add (acquire ns st) (name_string s) (Some l) st))
      = (sess, Some l, st2) /\
    promptHandler l ans (sess, st2)
      = Throw "TypeError: validate.then is not a function" (sess, st2).
Proof.
  intros Hlit Hempty Hs Ho Hv.
  destruct (prompt_asks_added_holds isTTY ns st s l o Hlit Hempty Hs Ho)
    as (st2 & Hprompt & _ & q & Hq & Hval).
  eexists _, st2. split; [exact Hprompt |].
  apply promptHandler_function with (q := q); [done |]. by rewrite Hval.
Qed.

End AskFacts.

(** ** The line listener *)

Section LineFacts.

Import Listeners Observe.

Ltac app_step := unfold String.append; fold String.append.

Lemma trimStart_spaces_app a x :
  all_space a = true -> trimStart (a +:+ x) = trimStart x.
Proof.
  induction a as [| c a IH]; [done |]. simpl. intros [Hc Ha]%andb_true_iff.
  app_step. simpl. rewrite Hc. by apply IH.
Qed.

Lemma trimEnd_spaces b : all_space b = true -> trimEnd b = "".
Proof.
  induction b as [| c b IH]; [done |]. simpl. intros [Hc Hb]%andb_true_iff.
  by rewrite IH, Hc.
Qed.

Lemma trimEnd_app_spaces w b :
  all_space b = true -> trimEnd (w +:+ b) = trimEnd w.
Proof.
  intros Hb. induction w as [| c w IH]; [by apply trimEnd_spaces |].
  app_step. simpl. by rewrite IH.
Qed.

Lemma length_trimStart s : (String.length (trimStart s) <= String.length s)%nat.
Proof.
  induction s as [| c s IH]; [done |]. simpl. destruct (is_space c); simpl; lia.
Qed.

Lemma word_head w :
  word w -> exists c r, w = String c r /\ is_space c = false.
Proof.
  intros (Hne & Hs & _). destruct w as [| c r]; [done |].
  exists c, r. split; [done |]. simpl in Hs.
  destruct (is_space c); [| done].
  pose proof (length_trimStart r) as Hl. rewrite Hs in Hl. simpl in Hl. lia.
Qed.

Lemma trim_padded a w b :
  all_space a = true -> all_space b = true -> word w ->
  trim (a +:+ w +:+ b) = w.
Proof.
  intros Ha Hb Hw. unfold trim. rewrite trimStart_spaces_app by done.
  destruct (word_head w Hw) as (c & r & -> & Hc).
  app_step. simpl. rewrite Hc.
  change (String c (r +:+ b)) with (String c r +:+ b).
  rewrite trimEnd_app_spaces by done. by destruct Hw as (_ & _ & ?).
Qed.

Lemma trim_spaces s : all_space s = true -> trim s = "".
Proof.
  intros Hs. unfold trim.
  assert (Ht : trimStart s = "").
  { induction s as [| c s IH]; [done |]. simpl in Hs |- *.
    apply andb_true_iff in Hs as [Hc Hs]. rewrite Hc. by apply IH. }
  by rewrite Ht.
Qed.

Lemma setDelim_calls_spec st : setDelim_calls st = map Core (delim_events st).
Proof.
  unfold setDelim_calls, setDelim, delim_events. simpl.
  by rewrite drop_app_length.
Qed.

(** X22. A line of white space only, or an empty line, never reaches the
    input handler: the delimiter is redrawn and nothing else happens. *)
Theorem blank_line_redraws isWindows exiting handler input st :
  all_space input = true ->
  onLine isWindows exiting handler input st
    = Normal (map Core (delim_events st), setDelim VUndefined st).
Proof.
  intros Hs. unfold onLine. rewrite (trim_spaces input Hs). simpl.
  by rewrite setDelim_calls_spec.
Qed.

Lemma fold_case_space c : is_space (fold_case c) = false -> is_space c = false.
Proof. destruct c as [[] [] [] [] [] [] [] []]; vm_compute; auto. Qed.

Lemma clear_is_word w : toLowerCase w = "clear" -> word w.
Proof.
  destruct w as [| c1 [| c2 [| c3 [| c4 [| c5 [| c6 r]]]]]]; try discriminate.
  simpl. unfold lower_ascii. intros [= H1 H2 H3 H4 H5].
  assert (E1 : is_space c1 = false) by (apply fold_case_space; by rewrite H1).
  assert (E5 : is_space c5 = false) by (apply fold_case_space; by rewrite H5).
  split; [done |]. split; simpl; by rewrite ?E1, ?E5.
Qed.

(** X23. The word "clear", in any letter case and with any white space
    around it, is not passed to the input handler.  Off Windows the screen
    is cleared and the delimiter redrawn; on Windows the listener throws
    before anything is written. *)
Theorem clear_line isWindows exiting handler a w b st :
  all_space a = true -> all_space b = true -> toLowerCase w = "clear" ->
  onLine isWindows exiting handler (a +:+ w +:+ b) st
    = if isWindows
      then Throw "TypeError: lines.forEach is not a function" ([], st)
      else Normal ([StdoutWrite ((ESC +:+ "[2J") +:+ (ESC +:+ "[0f")); RlCursorTo 0 0]
                     ++ map Core (delim_events st),
                   setDelim VUndefined st).
Proof.
  intros Ha Hb Hw. unfold onLine.
  rewrite (trim_padded a w b Ha Hb (clear_is_word w Hw)), Hw. simpl.
  destruct isWindows; simpl; [done |]. by rewrite setDelim_calls_spec.
Qed.

(** X24. Any other word, padded with white space, reaches the handler
    once and without the padding; the delimiter is then redrawn on the
    instance as the handler left it, and not at all when the handler
    throws.  The input holds code units below 128. *)
Theorem line_reaches_handler isWindows handler a w b st :
  ascii_only (a +:+ w +:+ b) = true ->
  all_space a = true -> all_space b = true -> word w ->
  toLowerCase w <> "clear" ->
  onLine isWindows false handler (a +:+ w +:+ b) st
    = match handler w st with
      | Normal st' =>
          Normal (CallHandler w :: map Core (delim_events st'), setDelim VUndefined st')
      | Throw e st' => Throw e ([CallHandler w], st')
      end.
Proof.
  intros _ Ha Hb Hw Hc. unfold onLine. rewrite (trim_padded a w b Ha Hb Hw).
  destruct (String.eqb_spec (toLowerCase w) "clear"); [done |].
  destruct Hw as (Hne & _). destruct (String.eqb_spec w ""); [done |]. simpl.
  destruct (handler w st); [| done]. by rewrite setDelim_calls_spec.
Qed.

(** Once the ['close'] listener has set its flag, no line reaches the
    handler any more. *)
Lemma exiting_never_calls isWindows handler input st :
  called (onLine isWindows true handler input st) = false.
Proof.
  unfold onLine, clearScreen. destruct (String.eqb _ "clear").
  - destruct isWindows; simpl; [done |]. rewrite setDelim_calls_spec.
    by induction (delim_events st).
  - rewrite andb_false_r. simpl. rewrite setDelim_calls_spec.
    by induction (delim_events st).
Qed.

End LineFacts.

(** ** Masked input, keystroke by keystroke *)

Section KeyFacts.

Import Mask Keys.

Lemma press_live k input st p :
  terminator k = false -> prompt st = Some p -> p <> "" ->
  exists st',
    press (Some k, input) st = Some st' /\
    prompt st' = Some p /\ mask_char st' = mask_char st /\
    String.length (chars st') = buffered (String.length (chars st)) k input /\
    out st' = out st ++ [ClearLine; CursorTo 0;
                         Write (p +:+ JS.repeat (mask_char st) (String.length (chars st')))].
Proof.
  intros Ht Hp Hne. unfold press, inputHandler, keypressHandler. simpl.
  unfold terminator, key_of in Ht. rewrite Ht, Hp.
  destruct (String.eqb_spec p ""); [done |].
  unfold buffered, key_of.
  destruct (String.eqb _ "backspace"); eexists; (split; [reflexivity |]); simpl.
  - repeat split; try done. apply length_slice0_minus_two.
  - repeat split; try done. apply length_append.
Qed.

Lemma type_live kss : forall st p,
  Forall live kss -> prompt st = Some p -> p <> "" ->
  exists st',
    type kss st = Some st' /\
    prompt st' = Some p /\ mask_char st' = mask_char st /\
    String.length (chars st') = final_length (String.length (chars st)) kss /\
    (kss <> [] ->
     last (out st')
       = Some (Write (p +:+ JS.repeat (mask_char st) (String.length (chars st'))))).
Proof.
  induction kss as [| [ko input] rest IH]; intros st p Hall Hp Hne.
  - exists st. by repeat split.
  - apply Forall_cons in Hall as [(k & Hk & Ht) Hall]. simpl in Hk. subst ko.
    destruct (press_live k input st p Ht Hp Hne) as (st1 & Hpress & Hp1 & Hm1 & Hl1 & Ho1).
    destruct (IH st1 p Hall Hp1 Hne) as (st' & Htype & Hp' & Hm' & Hl' & Hlast).
    exists st'. cbn [type]. rewrite Hpress. split; [done |]. split; [done |].
    split; [congruence |]. split.
    + unfold final_length in *. cbn [fold_left fst snd]. by rewrite <- Hl1.
    + intros _. destruct rest as [| ks rest'].
      * simpl in Htype. injection Htype as <-. rewrite Ho1.
        by rewrite last_app.
      * rewrite Hlast by done. by rewrite Hm1.
Qed.

(** X25. While the prompt is live and no key ends the input, the line on
    screen after the last keystroke is the prompt followed by one mask per
    buffered character, and the buffer has grown by the length of every
    input and shrunk by two for every backspace. *)
Theorem masked_line_follows_buffer p m kss :
  p <> "" -> kss <> [] -> Forall live kss ->
  exists st',
    type kss (mask (Some p) m) = Some st' /\
    String.length (chars st') = final_length 0 kss /\
    last (out st')
      = Some (Write (p +:+ JS.repeat (default_mask m) (String.length (chars st')))).
Proof.
  intros Hne Hks Hall.
  destruct (type_live kss (mask (Some p) m) p Hall eq_refl Hne)
    as (st' & Ht & _ & _ & Hl & Hlast).
  exists st'. split; [done |]. split; [done |]. by apply Hlast.
Qed.

Lemma type_dead kss : forall st,
  Forall keyed kss -> prompt st = None -> chars st = "" ->
  exists st',
    type kss st = Some st' /\ prompt st' = None /\ chars st' = "" /\
    List.filter is_write (out st') = List.filter is_write (out st).
Proof.
  induction kss as [| [ko input] rest IH]; intros st Hall Hp Hc.
  - by exists st.
  - apply Forall_cons in Hall as [[k Hk] Hall]. simpl in Hk. subst ko.
    cbn [type]. unfold press, inputHandler, keypressHandler. simpl.
    rewrite Hp.
    destruct (_ || _)%bool.
    + destruct (IH {| prompt := None; mask_char := mask_char st; chars := "";
                      lastKey := None; out := out st ++ [RemoveListeners] |})
        as (st' & Ht & Hp' & Hc' & Hw); try done.
      exists st'. repeat (split; [done |]). rewrite Hw. simpl.
      by rewrite List.filter_app, app_nil_r.
    + destruct (IH {| prompt := None; mask_char := mask_char st; chars := chars st;
                      lastKey := None; out := out st |})
        as (st' & Ht & Hp' & Hc' & Hw); try done.
      by exists st'.
Qed.

(** X26. A return key, or any key under the control modifier, empties the
    buffer and ends the prompt for good: whatever is typed afterwards, the
    buffer stays empty and nothing more is written to the output. *)
Theorem terminator_ends_input k input kss st :
  terminator k = true -> Forall keyed kss ->
  exists st',
    type ((Some k, input) :: kss) st = Some st' /\
    prompt st' = None /\ chars st' = "" /\
    List.filter is_write (out st') = List.filter is_write (out st).
Proof.
  intros Ht Hall. cbn [type]. unfold press, inputHandler, keypressHandler. simpl.
  unfold terminator, key_of in Ht. rewrite Ht.
  destruct (type_dead kss {| prompt := None; mask_char := mask_char st; chars := "";
                             lastKey := None; out := out st ++ [RemoveListeners] |})
    as (st' & Htype & Hp' & Hc' & Hw); try done.
  exists st'. repeat (split; [done |]). rewrite Hw. simpl.
  by rewrite List.filter_app, app_nil_r.
Qed.

(** X27. Every [data] event uses up the key of the last [keypress]: a
    second [data] event that no [keypress] precedes throws. *)
Theorem data_without_keypress input input' st st' :
  inputHandler input st = Some st' -> inputHandler input' st' = None.
Proof.
  unfold inputHandler at 1. destruct (lastKey st) as [k |]; [| done].
  destruct (_ || _)%bool.
  - by intros [= <-].
  - destruct (prompt st) as [p |].
    + destruct (String.eqb p ""); [by intros [= <-] |].
      destruct (String.eqb _ "backspace"); by intros [= <-].
    + by intros [= <-].
Qed.

End KeyFacts.

(** ** Every resolver *)

Section ResolverFacts.

Import Completion.

Lemma filter_prefix line comps :
  Forall (fun c => String.prefix line c = true) (filter line comps).
Proof.
  apply Forall_forall. intros c Hc. apply list_elem_of_In in Hc.
  by apply filter_spec in Hc as [_ ?].
Qed.

(** X28. Whatever the completion source is, a list, a function of one
    parameter or a function with a callback, a resolver that answers hands
    the line back unchanged, and every completion it answers with starts
    with the line. *)
Theorem resolver_answers_with_prefixes c line hits line' :
  completionHandler c line = Returns hits line' \/
  completionHandler c line = CallsBack hits line' ->
  line' = line /\ Forall (fun h => String.prefix line h = true) hits.
Proof.
  unfold completionHandler, _completer, _completerAsync.
  destruct c as [| [| c0 comps] | fn].
  - intros [[= <- <-] | [=]]. by split.
  - intros [[= <- <-] | [=]]. by split.
  - intros [[= <- <-] | [=]]. split; [done | apply (filter_prefix line (c0 :: comps))].
  - destruct (ch_length fn =? 1)%nat.
    + intros [[= <- <-] | [=]]. split; [done | apply filter_prefix].
    + destruct (ch_callback fn line) as [[[err |] comps] |];
        intros [[=] | H]; try discriminate.
      injection H as <- <-. split; [done | apply filter_prefix].
Qed.

End ResolverFacts.

(** ** The constructor *)

Section ConstructFacts.

Import Construct.

Lemma merged_lookup stdin stdout (opts : gmap string value) k :
  Options.extend (Options.extend ∅ (DEFAULTS stdin stdout)) opts !! k
    = match opts !! k with
      | Some v => Some v
      | None => DEFAULTS stdin stdout !! k
      end.
Proof.
  unfold Options.extend. rewrite lookup_union.
  destruct (opts !! k) as [v |] eqn:Hk.
  - by destruct ((DEFAULTS stdin stdout ∪ ∅) !! k).
  - rewrite left_id by apply _. by rewrite lookup_union, lookup_empty, right_id by apply _.
Qed.

(** X29. A constructor that succeeds leaves every option but [delim] as
    the caller gave it, or at its default when the caller gave none, and
    starts with an empty store, not initialised.  No option is given as
    undefined. *)
Theorem constructor_merges stdin stdout opts i k :
  (forall k', opts !! k' <> Some VUndefined) ->
  constructor stdin stdout (Some opts) = Built i -> k <> "delim" ->
  options i !! k = match opts !! k with
                   | Some v => Some v
                   | None => DEFAULTS stdin stdout !! k
                   end /\
  _prompts i = [] /\ _initialized i = false /\ _eventsEnabled i = false.
Proof.
  unfold constructor. simpl. intros _ H Hk.
  destruct (truthy _).
  - injection H as <-. simpl. by rewrite merged_lookup.
  - destruct (default VUndefined _) as [| | | | s | | |]; try discriminate.
    injection H as <-. simpl.
    rewrite lookup_insert_ne by done. by rewrite merged_lookup.
Qed.

(** X30. Without a [delim] of the caller (none, or a falsy one) the
    delimiter becomes the lower-cased application name followed by "> ":
    "inquir> " by default.  The name holds letters below 128. *)
Theorem constructor_delim stdin stdout opts s :
  Listeners.ascii_only s = true ->
  truthy (default VUndefined (opts !! "delim")) = false ->
  (opts !! "name" = Some (VString s) \/ opts !! "name" = None /\ s = "Inquir") ->
  exists i,
    constructor stdin stdout (Some opts) = Built i /\
    options i !! "delim" = Some (VString (toLowerCase s +:+ "> ")).
Proof.
  intros _ Hd Hn. unfold constructor. simpl.
  rewrite !merged_lookup.
  assert (Hdelim : truthy (default VUndefined
            match opts !! "delim" with
            | Some v => Some v
            | None => DEFAULTS stdin stdout !! "delim"
            end) = false).
  { destruct (opts !! "delim"); [done | reflexivity]. }
  rewrite Hdelim.
  assert (Hname : default VUndefined
            match opts !! "name" with
            | Some v => Some v
            | None => DEFAULTS stdin stdout !! "name"
            end = VString s).
  { destruct Hn as [-> | [-> ->]]; reflexivity. }
  rewrite Hname. eexists. split; [reflexivity |]. simpl.
  apply lookup_insert_eq.
Qed.

End ConstructFacts.

(** ** The object form of [setOption] *)

(** [setOption(object, val)] writes every key of the object and leaves
    every other option as it was; [val] plays no part. *)
Lemma setOption_object_spec {V : Type} (options obj : gmap string V) (v : V) k :
  Options.getOption (Options.setOption options (inr obj) v) k
    = match obj !! k with
      | Some x => Some x
      | None => Options.getOption options k
      end.
Proof.
  unfold Options.setOption, Options.getOption, Options.extend.
  rewrite lookup_union. destruct (obj !! k), (options !! k); done.
Qed.

(** ** Instances *)

Section Instances.

Import Registry Observe Outcome Cases.

Lemma add_then_get_witness :
  name_truthy (name_string "x") = true /\
  subject (name_string "x", Some 0%nat) = Some 0%nat /\
  heap three !! 0%nat = Some (Sample.question "q0" None) /\
  exists h' st',
    add (acquire "a" three) (name_string "x") (Some 0%nat) three = Normal (h', st') /\
    get h' (name_string "x") st' = Some 0%nat.
Proof.
  assert (H1 : name_truthy (name_string "x") = true) by reflexivity.
  assert (H2 : subject (name_string "x", Some 0%nat) = Some 0%nat) by reflexivity.
  assert (H3 : heap three !! 0%nat = Some (Sample.question "q0" None))
    by (vm_compute; reflexivity).
  split; [exact H1 |]. split; [exact H2 |]. split; [exact H3 |].
  destruct (add_then_get (acquire "a" three) (name_string "x") (Some 0%nat) three
              0%nat _ H1 H2 H3) as (h' & st' & Ha & Hg & _).
  exists h', st'. split; [exact Ha | exact Hg].
Defined.

Lemma add_frame_witness :
  "a:y" <> toNamespace "a" (name_string "x") /\
  subject (name_string "x", Some 0%nat) <> Some 1%nat /\
  map_get "a:y" (_prompts (after (add (fst filled) (name_string "x") (Some 0%nat) (snd filled))))
    = map_get "a:y" (_prompts (snd filled)) /\
  heap (after (add (fst filled) (name_string "x") (Some 0%nat) (snd filled))) !! 1%nat
    = heap (snd filled) !! 1%nat.
Proof.
  assert (H1 : "a:y" <> toNamespace "a" (name_string "x")) by (vm_compute; discriminate).
  assert (H2 : subject (name_string "x", Some 0%nat) <> Some 1%nat) by (vm_compute; discriminate).
  split; [exact H1 |]. split; [exact H2 |].
  destruct (add_frame (fst filled) (name_string "x") (Some 0%nat) (snd filled) "a:y" 1%nat)
    as (Hk & Hh & _).
  split; [exact (Hk H1) | exact (Hh H2)].
Defined.

Lemma add_keeps_position_witness :
  name_truthy (name_string "x") = true /\
  subject (name_string "x", Some 2%nat) = Some 2%nat /\
  is_Some (heap (snd filled) !! 2%nat) /\
  map fst (_prompts (after (add (fst filled) (name_string "x") (Some 2%nat) (snd filled))))
    = ["a:x"; "a:y"; "a:z"].
Proof.
  assert (H1 : name_truthy (name_string "x") = true) by reflexivity.
  assert (H2 : subject (name_string "x", Some 2%nat) = Some 2%nat) by reflexivity.
  assert (H3 : is_Some (heap (snd filled) !! 2%nat)) by (eexists; vm_compute; reflexivity).
  split; [exact H1 |]. split; [exact H2 |]. split; [exact H3 |].
  destruct H3 as [o Ho].
  exact (add_keeps_position (fst filled) (name_string "x") (Some 2%nat) (snd filled)
           2%nat o H1 H2 Ho).
Defined.

Lemma literal_filled : literal_pattern (namespace (fst filled)) = true.
Proof. vm_compute. reflexivity. Defined.

Lemma get_listed_witness :
  literal_pattern (namespace (fst filled)) = true /\
  get (fst filled) (name_string "y") (snd filled) = Some 1%nat /\
  In 1%nat (getAll (fst filled) (snd filled)).
Proof.
  assert (H1 : get (fst filled) (name_string "y") (snd filled) = Some 1%nat)
    by (vm_compute; reflexivity).
  split; [exact literal_filled |]. split; [exact H1 |].
  exact (get_listed (fst filled) (name_string "y") (snd filled) 1%nat literal_filled H1).
Defined.

Lemma remove_by_name_witness :
  alphabetic (name_string "y") /\
  "a:x" <> toNamespace "a" (name_string "y") /\
  exists st',
    remove (fst filled) (by_name (name_string "y")) (snd filled) = Normal st' /\
    exists_ (fst filled) (name_string "y") st' = false /\
    map_get "a:x" (_prompts st') = map_get "a:x" (_prompts (snd filled)).
Proof.
  assert (H1 : "a:x" <> toNamespace "a" (name_string "y")) by (vm_compute; discriminate).
  assert (H0 : alphabetic (name_string "y")) by reflexivity.
  split; [exact H0 |]. split; [exact H1 |].
  destruct (remove_by_name (fst filled) "y" (snd filled) H0)
    as (st' & Hr & He & Hk & _).
  exists st'. split; [exact Hr |]. split; [exact He |]. exact (Hk "a:x" H1).
Defined.

Lemma getById_spec_witness :
  literal_pattern (namespace (fst filled)) = true /\
  getById (fst filled) (Num 1) (snd filled) = Some 1%nat /\
  In 1%nat (getAll (fst filled) (snd filled)) /\
  id_of (snd filled) 1%nat = Some (Num 1).
Proof.
  assert (H1 : getById (fst filled) (Num 1) (snd filled) = Some 1%nat)
    by (vm_compute; reflexivity).
  split; [exact literal_filled |]. split; [exact H1 |].
  exact (proj1 (getById_spec (fst filled) 1 (snd filled) literal_filled) 1%nat H1).
Defined.

Lemma getById_NaN_witness :
  literal_pattern (namespace (fst filled)) = true /\
  getById (fst filled) NaN (snd filled) = None.
Proof.
  split; [exact literal_filled |].
  exact (getById_NaN (fst filled) (snd filled) literal_filled).
Defined.

Lemma add_ids_never_reused_witness :
  ctr (acquire "a" three) = VNumber (Num (-1)) /\
  increasing_from (-1)
    (add_ids (acquire "a" three)
       [(name_string "x", Some 0%nat); (name_string "y", None);
        (name_string "", Some 1%nat); (name_string "z", Some 2%nat)] three).
Proof.
  assert (H1 : ctr (acquire "a" three) = VNumber (Num (-1))) by reflexivity.
  split; [exact H1 |].
  exact (add_ids_never_reused (acquire "a" three) three _ (-1) H1).
Defined.

Lemma lastId_single_digits_witness :
  literal_pattern (namespace (fst filled)) = true /\
  Forall digit (listed_ids (fst filled) (snd filled)) /\
  listed_ids (fst filled) (snd filled) <> [] /\
  exists m, lastId (fst filled) (snd filled) = VNumber (Num m) /\
            forall z, In (Some (Num z)) (listed_ids (fst filled) (snd filled)) -> z <= m.
Proof.
  assert (H1 : Forall digit (listed_ids (fst filled) (snd filled))).
  { assert (E : listed_ids (fst filled) (snd filled)
                = [Some (Num 0); Some (Num 1); Some (Num 2)]) by (vm_compute; reflexivity).
    rewrite E.
    repeat (apply List.Forall_cons; [eexists; split; [reflexivity | lia] |]).
    apply List.Forall_nil. }
  assert (H2 : listed_ids (fst filled) (snd filled) <> []) by (vm_compute; discriminate).
  split; [exact literal_filled |]. split; [exact H1 |]. split; [exact H2 |].
  destruct (lastId_single_digits (fst filled) (snd filled) literal_filled H1 H2)
    as (m & Hl & _ & Hm).
  exists m. split; [exact Hl | exact Hm].
Defined.

Lemma usable_xyz : Forall (usable three) xyz.
Proof.
  repeat (apply List.Forall_cons;
            [split; [discriminate | eexists; vm_compute; reflexivity] |]).
  apply List.Forall_nil.
Defined.

Lemma names_xyz : NoDup (map fst xyz).
Proof. apply (bool_decide_unpack _). vm_compute. exact I. Defined.

Lemma objects_xyz : NoDup (map snd xyz).
Proof. apply (bool_decide_unpack _). vm_compute. exact I. Defined.

Lemma getAll_insertion_order_witness :
  literal_pattern "a" = true /\ _prompts three = [] /\
  NoDup (map fst xyz) /\ Forall (usable three) xyz /\
  getAll (fst filled) (snd filled) = [0; 1; 2]%nat.
Proof.
  assert (H1 : literal_pattern "a" = true) by reflexivity.
  assert (H2 : _prompts three = []) by reflexivity.
  split; [exact H1 |]. split; [exact H2 |]. split; [exact names_xyz |].
  split; [exact usable_xyz |].
  exact (proj1 (getAll_insertion_order "a" three xyz H1 H2 names_xyz usable_xyz)).
Defined.

Lemma destroy_spares_other_keys_witness :
  literal_pattern (namespace (acquire "a" Sample.three_namespaces)) = true /\
  Forall alphabetic
    (destroyed_names (acquire "a" Sample.three_namespaces) Sample.three_namespaces) /\
  (forall n, "ab:y" <> toNamespace "a" n) /\
  map_get "ab:y" (_prompts (snd (destroy (acquire "a" Sample.three_namespaces)
                                         Sample.three_namespaces)))
    = map_get "ab:y" (_prompts Sample.three_namespaces).
Proof.
  assert (H1 : forall n, "ab:y" <> toNamespace "a" n).
  { intros n. unfold toNamespace. cbv [String.append]. discriminate. }
  assert (H0 : literal_pattern (namespace (acquire "a" Sample.three_namespaces)) = true)
    by reflexivity.
  assert (H2 : Forall alphabetic
            (destroyed_names (acquire "a" Sample.three_namespaces)
               Sample.three_namespaces)).
  { assert (E : destroyed_names (acquire "a" Sample.three_namespaces)
                  Sample.three_namespaces
                = [name_string "x"; name_string "y"; name_string "z"])
      by (vm_compute; reflexivity).
    rewrite E. repeat (apply List.Forall_cons; [reflexivity |]). apply List.Forall_nil. }
  split; [exact H0 |]. split; [exact H2 |]. split; [exact H1 |].
  exact (proj1 (destroy_spares_other_keys (acquire "a" Sample.three_namespaces)
                  Sample.three_namespaces "ab:y" H0 H2 H1)).
Defined.

Lemma alphabetic_xyz : Forall (fun e => alphabetic (name_string (fst e))) xyz.
Proof. repeat (apply List.Forall_cons; [reflexivity |]). apply List.Forall_nil. Defined.

Lemma alphabetic_filled : Forall alphabetic (destroyed_names (fst filled) (snd filled)).
Proof.
  assert (E : destroyed_names (fst filled) (snd filled)
              = [name_string "x"; name_string "y"; name_string "z"])
    by (vm_compute; reflexivity).
  rewrite E. repeat (apply List.Forall_cons; [reflexivity |]). apply List.Forall_nil.
Defined.

Lemma fill_then_destroy_witness :
  literal_pattern "a" = true /\ _prompts three = [] /\
  NoDup (map fst xyz) /\ NoDup (map snd xyz) /\ Forall (usable three) xyz /\
  Forall (fun e => alphabetic (name_string (fst e))) xyz /\
  _prompts (snd (destroy (fst filled) (snd filled))) = [].
Proof.
  assert (H1 : literal_pattern "a" = true) by reflexivity.
  assert (H2 : _prompts three = []) by reflexivity.
  split; [exact H1 |]. split; [exact H2 |]. split; [exact names_xyz |].
  split; [exact objects_xyz |]. split; [exact usable_xyz |].
  split; [exact alphabetic_xyz |].
  exact (fill_then_destroy "a" three xyz H1 H2 names_xyz objects_xyz usable_xyz
           alphabetic_xyz).
Defined.

Lemma destroy_clears_witness :
  literal_pattern (namespace (fst filled)) = true /\
  Forall alphabetic (destroyed_names (fst filled) (snd filled)) /\
  own_keys (fst filled) (snd filled) /\
  getAll (fst (destroy (fst filled) (snd filled)))
         (snd (destroy (fst filled) (snd filled))) = [].
Proof.
  assert (H1 : own_keys (fst filled) (snd filled)).
  { intros k Hk _. vm_compute in Hk.
    destruct Hk as [<- | [<- | [<- | []]]]; eexists _, _;
      (split; [vm_compute; reflexivity |]); (split; vm_compute; reflexivity). }
  split; [exact literal_filled |]. split; [exact alphabetic_filled |].
  split; [exact H1 |].
  exact (proj1 (destroy_clears (fst filled) (snd filled) literal_filled
                  alphabetic_filled H1)).
Defined.

Lemma reacquire_continues_witness :
  literal_pattern "a" = true /\ _prompts three = [] /\
  NoDup (map fst xyz) /\ NoDup (map snd xyz) /\ Forall (usable three) xyz /\
  (length xyz <= 10)%nat /\
  Forall (has_object (snd filled)) [(name_string "w", Some 0%nat)] /\
  add_ids (acquire "a" (snd filled)) [(name_string "w", Some 0%nat)] (snd filled)
    = [Some (Num 3)].
Proof.
  assert (H1 : literal_pattern "a" = true) by reflexivity.
  assert (H2 : _prompts three = []) by reflexivity.
  assert (H3 : (length xyz <= 10)%nat) by (simpl; lia).
  assert (H4 : Forall (has_object (snd filled)) [(name_string "w", Some 0%nat)]).
  { apply List.Forall_cons; [| apply List.Forall_nil].
    eexists. split; [reflexivity |]. eexists. vm_compute. reflexivity. }
  split; [exact H1 |]. split; [exact H2 |]. split; [exact names_xyz |].
  split; [exact objects_xyz |]. split; [exact usable_xyz |]. split; [exact H3 |].
  split; [exact H4 |].
  exact (proj2 (reacquire_continues "a" three xyz _ H1 H2 names_xyz objects_xyz
                  usable_xyz H3 H4)).
Defined.

Lemma toggleExceptions_never_rearms_witness :
  _eventsEnabled (toggleExceptions three) = true /\
  _eventsEnabled (Nat.iter 3 toggleExceptions (toggleExceptions three)) = true /\
  count_events is_subscribe (Nat.iter 3 toggleExceptions (toggleExceptions three))
    = count_events is_subscribe (toggleExceptions three).
Proof.
  assert (H1 : _eventsEnabled (toggleExceptions three) = true) by reflexivity.
  split; [exact H1 |].
  exact (toggleExceptions_never_rearms 3 (toggleExceptions three) H1).
Defined.

Lemma prompt_without_first_question_witness :
  literal_pattern "a" = true /\
  getById (acquire "a" three) (Num 0) three = None /\
  exists err st',
    Engine.prompt true "a" three
      = ({| Engine.collection := "a"; Engine.responses := [];
            Engine.returned := Rejected err |}, None, st') /\
    List.filter is_question (new_events three st') = [].
Proof.
  assert (H1 : literal_pattern "a" = true) by reflexivity.
  assert (H2 : getById (acquire "a" three) (Num 0) three = None) by reflexivity.
  split; [exact H1 |]. split; [exact H2 |].
  exact (prompt_without_first_question true "a" three H1 H2).
Defined.

Lemma prompt_initialises_again_witness :
  literal_pattern "a" = true /\
  _initialized three = false /\
  _initialized (snd (Engine.prompt true "a" three)) = false /\
  _eventsEnabled (snd (Engine.prompt true "a" three)) = true /\
  count_events is_create (snd (Engine.prompt true "a" three))
    = S (count_events is_create three).
Proof.
  assert (H1 : _initialized three = false) by reflexivity.
  assert (H0 : literal_pattern "a" = true) by reflexivity.
  split; [exact H0 |]. split; [exact H1 |].
  exact (prompt_initialises_again true "a" three H0 H1).
Defined.

Lemma listen_twice_witness :
  truthy (Listeners.chosen (VFunction "noop" 0) VUndefined three) = true /\
  exists st1 st2,
    Listener.listen (VFunction "noop" 0) true VUndefined three = Normal st1 /\
    _initialized st1 = true /\
    Listener.listen (VFunction "noop" 0) true VUndefined st1 = Normal st2 /\
    new_events st1 st2
      = delim_events three ++ [RlOn "line"; RlOn "SIGINT"; RlOn "close"].
Proof.
  assert (H1 : truthy (Listeners.chosen (VFunction "noop" 0) VUndefined three) = true)
    by reflexivity.
  split; [exact H1 |].
  destruct (listen_twice (VFunction "noop" 0) true VUndefined three H1)
    as (st1 & st2 & Ha & Hb & _ & _ & _ & Hc & Hd).
  exists st1, st2. split; [exact Ha |]. split; [exact Hb |].
  split; [exact Hc | exact Hd].
Defined.

Lemma prompt_asks_added_witness :
  literal_pattern "a" = true /\ _prompts three = [] /\ "x" <> "" /\
  heap three !! 0%nat = Some (Sample.question "q0" None) /\
  exists st2,
    Engine.prompt true "a"
      (after (add (acquire "a" three) (name_string "x") (Some 0%nat) three))
      = ({| Engine.collection := "a"; Engine.responses := [];
            Engine.returned := Pending |}, Some 0%nat, st2) /\
    List.filter is_question (trace st2) = [RlQuestion "q0"].
Proof.
  assert (H1 : literal_pattern "a" = true) by reflexivity.
  assert (H2 : _prompts three = []) by reflexivity.
  assert (H3 : "x" <> "") by discriminate.
  assert (H4 : heap three !! 0%nat = Some (Sample.question "q0" None))
    by (vm_compute; reflexivity).
  split; [exact H1 |]. split; [exact H2 |]. split; [exact H3 |]. split; [exact H4 |].
  destruct (prompt_asks_added true "a" three "x" 0%nat _ H1 H2 H3 H4)
    as (st2 & Ha & Hb & _).
  exists st2. split; [exact Ha | exact Hb].
Defined.

Lemma answer_always_throws_witness :
  literal_pattern "a" = true /\ _prompts three = [] /\ "x" <> "" /\
  heap three !! 0%nat = Some (Sample.question "q0" None) /\
  p_validate (Sample.question "q0" None) = None /\
  exists sess st2,
    Engine.prompt true "a"
      (after (add (acquire "a" three) (name_string "x") (Some 0%nat) three))
      = (sess, Some 0%nat, st2) /\
    Engine.promptHandler 0%nat "Sam" (sess, st2)
      = Throw "TypeError: validate.then is not a function" (sess, st2).
Proof.
  assert (H1 : literal_pattern "a" = true) by reflexivity.
  assert (H2 : _prompts three = []) by reflexivity.
  assert (H3 : "x" <> "") by discriminate.
  assert (H4 : heap three !! 0%nat = Some (Sample.question "q0" None))
    by (vm_compute; reflexivity).
  assert (H5 : p_validate (Sample.question "q0" None) = None) by reflexivity.
  split; [exact H1 |]. split; [exact H2 |]. split; [exact H3 |]. split; [exact H4 |].
  split; [exact H5 |].
  exact (answer_always_throws true "a" three "x" 0%nat _ "Sam" H1 H2 H3 H4
           (or_introl H5)).
Defined.

Lemma blank_line_redraws_witness :
  Listeners.all_space "   " = true /\
  Listeners.onLine false false quiet "   " three
    = Normal (map Listeners.Core (delim_events three), setDelim VUndefined three).
Proof.
  assert (H1 : Listeners.all_space "   " = true) by reflexivity.
  split; [exact H1 |].
  exact (blank_line_redraws false false quiet "   " three H1).
Defined.

Lemma clear_line_witness :
  Listeners.all_space " " = true /\ Listeners.all_space "  " = true /\
  toLowerCase "CLeaR" = "clear" /\
  Listeners.called (Listeners.onLine false false quiet (" " +:+ "CLeaR" +:+ "  ") three)
    = false.
Proof.
  assert (H1 : Listeners.all_space " " = true) by reflexivity.
  assert (H2 : Listeners.all_space "  " = true) by reflexivity.
  assert (H3 : toLowerCase "CLeaR" = "clear") by reflexivity.
  split; [exact H1 |]. split; [exact H2 |]. split; [exact H3 |].
  rewrite (clear_line false false quiet " " "CLeaR" "  " three H1 H2 H3).
  reflexivity.
Defined.

Lemma line_reaches_handler_witness :
  Listeners.ascii_only (" " +:+ "add item" +:+ " ") = true /\
  Listeners.all_space " " = true /\ Listeners.word "add item" /\
  toLowerCase "add item" <> "clear" /\
  Listeners.onLine false false quiet (" " +:+ "add item" +:+ " ") three
    = Normal (Listeners.CallHandler "add item"
                :: map Listeners.Core (delim_events three),
              setDelim VUndefined three).
Proof.
  assert (H1 : Listeners.ascii_only (" " +:+ "add item" +:+ " ") = true) by reflexivity.
  assert (H2 : Listeners.all_space " " = true) by reflexivity.
  assert (H3 : Listeners.word "add item") by (repeat split; discriminate || reflexivity).
  assert (H4 : toLowerCase "add item" <> "clear") by (vm_compute; discriminate).
  split; [exact H1 |]. split; [exact H2 |]. split; [exact H3 |]. split; [exact H4 |].
  exact (line_reaches_handler false quiet " " "add item" " " three H1 H2 H2 H3 H4).
Defined.

Lemma masked_line_follows_buffer_witness :
  "Password: " <> "" /\
  Forall Keys.live [(Some letter_a, "a"); (Some letter_a, "a"); (Some Sample.backspace, "")] /\
  exists st',
    Keys.type [(Some letter_a, "a"); (Some letter_a, "a"); (Some Sample.backspace, "")]
      (Mask.mask (Some "Password: ") None) = Some st' /\
    String.length (Mask.chars st') = 0%nat.
Proof.
  assert (H1 : "Password: " <> "") by discriminate.
  assert (H2 : Forall Keys.live
            [(Some letter_a, "a"); (Some letter_a, "a"); (Some Sample.backspace, "")]).
  { repeat (apply List.Forall_cons; [eexists; split; reflexivity |]).
    apply List.Forall_nil. }
  assert (H3 : [(Some letter_a, "a"); (Some letter_a, "a"); (Some Sample.backspace, "")]
               <> ([] : list Keys.keystroke)) by discriminate.
  split; [exact H1 |]. split; [exact H2 |].
  destruct (masked_line_follows_buffer "Password: " None _ H1 H3 H2)
    as (st' & Ht & Hl & _).
  exists st'. split; [exact Ht | exact Hl].
Defined.

Lemma terminator_ends_input_witness :
  Keys.terminator enter = true /\
  Forall Keys.keyed [(Some letter_a, "a")] /\
  exists st',
    Keys.type [(Some enter, ""); (Some letter_a, "a")] (Sample.typed "abc" enter)
      = Some st' /\
    Mask.chars st' = "".
Proof.
  assert (H1 : Keys.terminator enter = true) by reflexivity.
  assert (H2 : Forall Keys.keyed [(Some letter_a, "a")]).
  { apply List.Forall_cons; [by eexists | apply List.Forall_nil]. }
  split; [exact H1 |]. split; [exact H2 |].
  destruct (terminator_ends_input enter "" _ (Sample.typed "abc" enter) H1 H2)
    as (st' & Ht & _ & Hc & _).
  exists st'. split; [exact Ht | exact Hc].
Defined.

Lemma data_without_keypress_witness :
  Mask.inputHandler "a" (Sample.typed "" letter_a)
    = Some (Mask.redraw "Password: " (Sample.typed "" letter_a) "a") /\
  Mask.inputHandler "b" (Mask.redraw "Password: " (Sample.typed "" letter_a) "a") = None.
Proof.
  assert (H1 : Mask.inputHandler "a" (Sample.typed "" letter_a)
               = Some (Mask.redraw "Password: " (Sample.typed "" letter_a) "a"))
    by reflexivity.
  split; [exact H1 |].
  exact (data_without_keypress "a" "b" _ _ H1).
Defined.

Lemma resolver_answers_with_prefixes_witness :
  Completion.completionHandler (Completion.completer_array ["add"; "remove"; "list"]) "re"
    = Completion.Returns ["remove"] "re" /\
  "re" = "re" /\ Forall (fun h => String.prefix "re" h = true) ["remove"].
Proof.
  assert (H1 : Completion.completionHandler
                 (Completion.completer_array ["add"; "remove"; "list"]) "re"
               = Completion.Returns ["remove"] "re") by reflexivity.
  split; [exact H1 |].
  exact (resolver_answers_with_prefixes _ "re" ["remove"] "re" (or_introl H1)).
Defined.

Lemma constructor_merges_witness :
  (forall k', ({[ "name" := VString "Shop" ]} : gmap string value) !! k'
              <> Some VUndefined) /\
  Construct.constructor VNull VNull (Some {[ "name" := VString "Shop" ]})
    = Construct.Built
        {| options := <["delim" := VString "shop> "]>
                        (Options.extend (Options.extend ∅ (Construct.DEFAULTS VNull VNull))
                           {[ "name" := VString "Shop" ]});
           _prompts := []; _initialized := false; _eventsEnabled := false;
           heap := ∅; trace := [] |} /\
  "colorize" <> "delim" /\
  options {| options := <["delim" := VString "shop> "]>
                          (Options.extend (Options.extend ∅ (Construct.DEFAULTS VNull VNull))
                             {[ "name" := VString "Shop" ]});
             _prompts := []; _initialized := false; _eventsEnabled := false;
             heap := ∅; trace := [] |} !! "colorize"
    = Some (VBool true).
Proof.
  assert (H1 : Construct.constructor VNull VNull (Some {[ "name" := VString "Shop" ]})
    = Construct.Built
        {| options := <["delim" := VString "shop> "]>
                        (Options.extend (Options.extend ∅ (Construct.DEFAULTS VNull VNull))
                           {[ "name" := VString "Shop" ]});
           _prompts := []; _initialized := false; _eventsEnabled := false;
           heap := ∅; trace := [] |}) by (vm_compute; reflexivity).
  assert (H2 : "colorize" <> "delim") by discriminate.
  assert (H0 : forall k', ({[ "name" := VString "Shop" ]} : gmap string value) !! k'
                          <> Some VUndefined).
  { intros k'. destruct (decide (k' = "name")) as [-> | Hne].
    - rewrite lookup_singleton_eq. discriminate.
    - rewrite lookup_singleton_ne by done. discriminate. }
  split; [exact H0 |]. split; [exact H1 |]. split; [exact H2 |].
  exact (proj1 (constructor_merges VNull VNull _ _ "colorize" H0 H1 H2)).
Defined.

Lemma constructor_delim_witness :
  Listeners.ascii_only "Shop" = true /\
  truthy (default VUndefined
            (({[ "name" := VString "Shop" ]} : gmap string value) !! "delim")) = false /\
  ({[ "name" := VString "Shop" ]} : gmap string value) !! "name" = Some (VString "Shop") /\
  exists i,
    Construct.constructor VNull VNull (Some {[ "name" := VString "Shop" ]})
      = Construct.Built i /\
    options i !! "delim" = Some (VString "shop> ").
Proof.
  assert (H1 : Listeners.ascii_only "Shop" = true) by reflexivity.
  assert (H2 : truthy (default VUndefined
            (({[ "name" := VString "Shop" ]} : gmap string value) !! "delim")) = false)
    by reflexivity.
  assert (H3 : ({[ "name" := VString "Shop" ]} : gmap string value) !! "name"
               = Some (VString "Shop")) by reflexivity.
  split; [exact H1 |]. split; [exact H2 |]. split; [exact H3 |].
  exact (constructor_delim VNull VNull _ "Shop" H1 H2 (or_introl H3)).
Defined.

End Instances.
